(** * DALI master driver (dali.go): shallow embedding and verified properties

    The Go package [dali] drives a DALI lighting bus through a serial
    [Port]: it encodes forward frames, issues requests, waits for backward
    frames, scans the 64 short addresses and commissions unbound devices by
    a binary search over the 24-bit long-address space.

    Conventions of the embedding:
    - Go integers are [Z] with the wrap-around of their width written out
      ([wrap64] for [int]/[int64], [uint8] for [uint8]/[byte]);
    - a slice is a [list Z]; an index or shift that panics in Go yields
      [None] (pure code) or [Panicked] (effectful code);
    - effectful code lives in the monad [M], whose state is the serial port
      together with a ghost history of the driver's requests and reads;
      [log.Fatal] ends the process ([Exited]);
    - [time.Sleep] and [log.Println]/[log.Printf] have no effect on the
      values computed and are left out. *)

From Stdlib Require Import ZArith List Bool Lia Sorted.
Import ListNotations.
Local Open Scope Z_scope.

(** ** Machine integers *)

Definition wrap64 (z : Z) : Z := (z + 2 ^ 63) mod 2 ^ 64 - 2 ^ 63.
Definition uint8 (z : Z) : Z := z mod 256.

(** Go constants of the package. *)
Definition BROADCAST_DP : Z := 254.  (* 0b11111110 *)
Definition BROADCAST_C  : Z := 255.  (* 0b11111111 *)
Definition ON_DP        : Z := 254.  (* 0b11111110 *)
Definition OFF_DP       : Z := 0.    (* 0b00000000 *)
Definition ON_C         : Z := 5.    (* 0b00000101 *)
Definition OFF_C        : Z := 0.    (* 0b00000000 *)
Definition QUERY_STATUS : Z := 144.  (* 0b10010000 *)
Definition RESET        : Z := 32.   (* 0b00100000 *)

(** Number of increments that take a loop counter [i] up to [bound]: the
    variant of the counted loops. *)
Definition countdown (bound i : Z) : nat := Z.to_nat (bound - i).
Arguments countdown : simpl never.

(** ** Slices and shifts that may panic *)

Definition bind_opt {A B} (x : option A) (f : A -> option B) : option B :=
  match x with Some a => f a | None => None end.

Notation "'do' x <- c ; k" := (bind_opt c (fun x => k))
  (at level 10, x name, c at level 100, k at level 200).

(** [l[i]] : panics when [i] is out of range. *)
Definition slice_get (l : list Z) (i : Z) : option Z :=
  if i <? 0 then None else nth_error l (Z.to_nat i).

(** [l[i] = v] : panics when [i] is out of range. *)
Definition slice_set (l : list Z) (i : Z) (v : Z) : option (list Z) :=
  if (0 <=? i) && (i <? Z.of_nat (length l))
  then Some (firstn (Z.to_nat i) l ++ v :: skipn (S (Z.to_nat i)) l)
  else None.

(** [1 << pos] at type [uint8] (the type the untyped constant 1 takes next
    to a [uint8] operand); a negative shift count panics. *)
Definition shl1_uint8 (pos : Z) : option Z :=
  if pos <? 0 then None else Some (uint8 (Z.shiftl 1 pos)).

(** ** Frame encoder *)

(** [is_bit_set(n uint8, pos int) bool] *)
Definition is_bit_set (n : Z) (pos : Z) : option bool :=
  do m <- shl1_uint8 pos;
  let val := Z.land n m in
  Some (val >? 0).

(** The local variables of [create_dali_frame] that the loops update. *)
Record frame_state := mkFrame {
  msg : list Z;
  msg_cn : Z;
  byte_frame : Z
}.

(** [msg[byte_frame] = msg[byte_frame] &^ (1 << msg_cn)] *)
Definition unset_bit (st : frame_state) : option frame_state :=
  do b <- slice_get (msg st) (byte_frame st);
  do m <- shl1_uint8 (msg_cn st);
  do msg' <- slice_set (msg st) (byte_frame st) (Z.ldiff b m);
  Some (mkFrame msg' (msg_cn st) (byte_frame st)).

(** [msg[byte_frame] = msg[byte_frame] | (1 << msg_cn)] *)
Definition set_bit (st : frame_state) : option frame_state :=
  do b <- slice_get (msg st) (byte_frame st);
  do m <- shl1_uint8 (msg_cn st);
  do msg' <- slice_set (msg st) (byte_frame st) (Z.lor b m);
  Some (mkFrame msg' (msg_cn st) (byte_frame st)).

(** [msg_cn --] *)
Definition dec_cn (st : frame_state) : frame_state :=
  mkFrame (msg st) (wrap64 (msg_cn st - 1)) (byte_frame st).

(** Body of the inner loop of [create_dali_frame] (lines 152-168). *)
Definition encode_bit (dali_convert i : Z) (st : frame_state)
  : option frame_state :=
  let st :=
    if msg_cn st <? 0
    then mkFrame (msg st) 7 (wrap64 (byte_frame st + 1))
    else st in
  do b <- is_bit_set dali_convert i;
  if b then
    do st <- unset_bit st;
    let st := dec_cn st in
    do st <- set_bit st;
    Some (dec_cn st)
  else
    do st <- set_bit st;
    let st := dec_cn st in
    do st <- unset_bit st;
    Some (dec_cn st).

(** [for i := ...; i < 0; i++ { body }], for any loop body: the loop of
    line 150 is [bit_loop (encode_bit dali_convert) 7]. The counter reaches
    0 after [countdown 0 i] increments, so that many rounds are allowed. *)
Fixpoint bit_rounds (rounds : nat)
  (body : Z -> frame_state -> option frame_state)
  (i : Z) (st : frame_state) : option frame_state :=
  if i <? 0 then
    match rounds with
    | O => None
    | S rounds' =>
        do st' <- body i st;
        bit_rounds rounds' body (wrap64 (i + 1)) st'
    end
  else Some st.

Definition bit_loop (body : Z -> frame_state -> option frame_state)
  (i : Z) (st : frame_state) : option frame_state :=
  bit_rounds (countdown 0 i) body i st.

(** One round of the outer loop [for j := 0; j < 2; j++] (lines 146-169). *)
Definition encode_operand (dali_address dali_command : Z)
  (j : Z) (dali_convert : Z) (st : frame_state) : option (Z * frame_state) :=
  let dali_convert := if j =? 1 then dali_command else dali_convert in
  do st <- bit_loop (encode_bit dali_convert) 7 st;
  Some (dali_convert, st).

(** [func create_dali_frame(dali_address uint8, dali_command uint8) []byte];
    [None] stands for a run-time panic. The loop over [j] runs for j = 0
    and j = 1 and is written out. *)
Definition create_dali_frame (dali_address dali_command : Z)
  : option (list Z) :=
  let msg0 := [0; 0; 0; 0; 0] in                    (* make([]byte,5) *)
  let byte_frame0 := 0 in
  do b <- slice_get msg0 byte_frame0;
  do msg1 <- slice_set msg0 byte_frame0 (Z.lor b 64); (* msg[0] |= 0x40 *)
  let st := mkFrame msg1 5 byte_frame0 in
  let dali_convert := dali_address in
  do r0 <- encode_operand dali_address dali_command 0 dali_convert st;
  do r1 <- encode_operand dali_address dali_command 1 (fst r0) (snd r0);
  Some (msg (snd r1)).


(** ** The serial port and the driver's monad *)

(** Values of Go's [error] that the transport produces; [nil] is [None]. *)
Inductive error := ErrTimeout | ErrIO.

(** [type Port interface { io.ReadWriteCloser }]. [port_Write p b] returns
    the byte count and the error of [Write(b)]; [port_Read p n] returns the
    bytes delivered into a buffer of [n] bytes and the error of [Read]. *)
Class Port (P : Type) := {
  port_Write : P -> list Z -> P * (Z * option error);
  port_Read  : P -> nat -> P * (list Z * option error);
  port_Close : P -> P * option error
}.

(** Ghost events: the requests handed to [Issue_dali_request] and the
    buffers delivered by [Wait_dali_response]. They never influence the
    control flow. *)
Inductive event :=
| Sent (dali_address dali_command : Z)
| Received (response : list Z).

(** What [Read] leaves in the caller's buffer: the delivered bytes over the
    old contents, within the buffer's length. *)
Definition store_bytes (buf data : list Z) : list Z :=
  firstn (length buf) (data ++ skipn (length data) buf).

Section Driver.

Context {P : Type} `{Port P}.

(** The port and the ghost log of events, newest first. *)
Record world := mkWorld {
  port : P;
  log : list event
}.

(** The events so far, oldest first. *)
Definition history (w : world) : list event := rev_append (log w) [].

Inductive outcome (A : Type) :=
| Returned (w : world) (a : A)   (* the function returns [a] *)
| Exited (w : world) (e : error) (* [log.Fatal(e)]: the process exits *)
| Panicked                       (* run-time panic *)
| OutOfFuel.                     (* the model's loop budget ran out *)

Arguments Returned {A} w a.
Arguments Exited {A} w e.
Arguments Panicked {A}.
Arguments OutOfFuel {A}.

Definition M (A : Type) : Type := world -> outcome A.

Definition ret {A} (a : A) : M A := fun w => Returned w a.

Definition bind {A B} (m : M A) (k : A -> M B) : M B :=
  fun w =>
    match m w with
    | Returned w' a => k a w'
    | Exited w' e => Exited w' e
    | Panicked => Panicked
    | OutOfFuel => OutOfFuel
    end.

Notation "x <- c ;; k" := (bind c (fun x => k))
  (at level 61, c at next level, right associativity).
Notation "c ;;; k" := (bind c (fun _ => k))
  (at level 61, right associativity).

(** [log.Fatal(err)] *)
Definition log_Fatal {A} (err : error) : M A := fun w => Exited w err.

Definition panic {A} : M A := fun _ => Panicked.

Definition record (e : event) : M unit :=
  fun w => Returned (mkWorld (port w) (e :: log w)) tt.

(** [port.Write(message)] *)
Definition Write (message : list Z) : M (Z * option error) :=
  fun w => let '(p', r) := port_Write (port w) message in
           Returned (mkWorld p' (log w)) r.

(** [port.Read(response)]: returns the buffer as [Read] leaves it. *)
Definition Read (response : list Z) : M (list Z * option error) :=
  fun w => let '(p', (data, err)) := port_Read (port w) (length response) in
           Returned (mkWorld p' (log w)) (store_bytes response data, err).

(** [func Issue_dali_request(port Port, dali_address uint8,
    dali_command uint8) (err error)] *)
Definition Issue_dali_request (dali_address dali_command : Z)
  : M (option error) :=
  record (Sent dali_address dali_command) ;;;
  match create_dali_frame dali_address dali_command with
  | None => panic
  | Some message =>
      r <- Write message ;;
      match snd r with
      | Some err => log_Fatal err   (* [return err] is never reached *)
      | None => ret None
      end
  end.

(** [func Wait_dali_response(port Port) ([]byte, error)] *)
Definition Wait_dali_response : M (list Z * option error) :=
  let response := [0; 0; 0] in                      (* make([]byte,3) *)
  r <- Read response ;;
  match snd r with
  | Some err => log_Fatal err
  | None => record (Received (fst r)) ;;; ret (fst r, None)
  end.

(** [func Close_serial_connection(port Port) error] *)
Definition Close_serial_connection : M (option error) :=
  err <- (fun w => let '(p', err) := port_Close (port w) in
                   Returned (mkWorld p' (log w)) err) ;;    (* port.Close() *)
  (match err with
   | Some e => log_Fatal e
   | None => ret tt
   end) ;;;
  ret err.

(** *** Address scanner *)

(** The test of lines 255-257 on the scanner's 3-byte buffer,
    [single_response[0] ^ 0xff != 0 || single_response[1] ^ 0xff != 0 ||
     single_response[2] ^ 0xff != 0], evaluated left to right. *)
Definition scan_heard (single_response : list Z) : option bool :=
  do b0 <- slice_get single_response 0;
  if negb (Z.lxor b0 0xff =? 0) then Some true else
  do b1 <- slice_get single_response 1;
  if negb (Z.lxor b1 0xff =? 0) then Some true else
  do b2 <- slice_get single_response 2;
  Some (negb (Z.lxor b2 0xff =? 0)).

(** Locals of [Scan_addresses] that its loop updates. *)
Record scan_state := mkScan {
  response : list Z;
  short_addresses : Z
}.

(** [1 + (x << 1)] at type [uint8]. *)
Definition address_token (x : Z) : Z := uint8 (1 + uint8 (Z.shiftl x 1)).

(** Body of the loop of [Scan_addresses] (lines 247-268). *)
Definition scan_probe (device_short_add : Z) (st : scan_state)
  : M scan_state :=
  let address_byte := address_token device_short_add in
  Issue_dali_request address_byte 0xA1 ;;;
  r <- Wait_dali_response ;;
  let single_response := fst r in
  match scan_heard single_response with
  | None => panic
  | Some true =>
      Issue_dali_request address_byte ON_C ;;;
      Issue_dali_request address_byte OFF_C ;;;
      match slice_set (response st) (short_addresses st) address_byte with
      | None => panic
      | Some response' =>
          ret (mkScan (response' ++ [0])                (* append(response,0) *)
                      (uint8 (short_addresses st + 1)))
      end
  | Some false => ret st
  end.

(** [for device_short_add = ...; device_short_add < 64;
    device_short_add++]. The counter reaches 64 after
    [countdown 64 device_short_add] increments, so that many rounds are
    allowed. *)
Fixpoint scan_rounds (rounds : nat) (device_short_add : Z) (st : scan_state)
  : M scan_state :=
  if device_short_add <? 64 then
    match rounds with
    | O => fun _ => OutOfFuel
    | S rounds' =>
        st' <- scan_probe device_short_add st ;;
        scan_rounds rounds' (uint8 (device_short_add + 1)) st'
    end
  else ret st.

Definition scan_loop (device_short_add : Z) (st : scan_state)
  : M scan_state :=
  scan_rounds (countdown 64 device_short_add) device_short_add st.

(** [func Scan_addresses(port Port) ([]byte, error)] *)
Definition Scan_addresses : M (list Z * option error) :=
  Issue_dali_request BROADCAST_C OFF_C ;;;
  st <- scan_loop 0 (mkScan [0] 0) ;;
  err <- Issue_dali_request BROADCAST_C ON_C ;;
  ret (response st, err).

(** *** Commissioner *)

(** [func split_address(input int64) (uint8, uint8, uint8)] *)
Definition split_address (input : Z) : Z * Z * Z :=
  let highbyte := uint8 (Z.shiftr input 16) in
  let middlebyte := uint8 (Z.shiftr input 8) in
  let lowbyte := uint8 input in
  (highbyte, middlebyte, lowbyte).

(** Locals of [Initialize_dali] that its loops update. *)
Record session := mkSession {
  low_longadd : Z;
  high_longadd : Z;
  longadd : Z;
  short_add : Z
}.

(** [(low_longadd + high_longadd) / 2] on [int64]; Go's [/] truncates. *)
Definition midpoint (low high : Z) : Z := Z.quot (wrap64 (low + high)) 2.

(** The locals as initialised on lines 299-302. *)
Definition session0 : session :=
  mkSession 0x000000 0xFFFFFF (midpoint 0x000000 0xFFFFFF) 0.

(** The test of line 349 on the commissioner's 3-byte buffer,
    [rsp[0] ^ 0xff != 0 || rsp[1] ^ 0xff != 0 || rsp[2] ^ 0xff != 0]. *)
Definition compare_heard (rsp : list Z) : option bool :=
  do b0 <- slice_get rsp 0;
  if negb (Z.lxor b0 0xff =? 0) then Some true else
  do b1 <- slice_get rsp 1;
  if negb (Z.lxor b1 0xff =? 0) then Some true else
  do b2 <- slice_get rsp 2;
  Some (negb (Z.lxor b2 0xff =? 0)).

(** Lines 349-360: move one bound to the candidate, then re-centre. *)
Definition narrow (s : session) (heard : bool) : session :=
  let low := if heard then longadd s else low_longadd s in
  let high := if heard then high_longadd s else longadd s in
  mkSession low high (midpoint low high) (short_add s).

(** Body of the inner loop (lines 334-360). [inl e] is the early
    [return rsp_err] of line 345. *)
Definition search_iteration (s : session) : M (error + session) :=
  let '(highbyte, middlebyte, lowbyte) := split_address (longadd s) in
  Issue_dali_request 0xB1 highbyte ;;;
  Issue_dali_request 0xB1 middlebyte ;;;
  Issue_dali_request 0xB1 lowbyte ;;;
  Issue_dali_request 0xA9 0 ;;;                                  (* compare *)
  r <- Wait_dali_response ;;
  match snd r with
  | Some rsp_err => ret (inl rsp_err)
  | None =>
      match compare_heard (fst r) with
      | None => panic
      | Some heard => ret (inr (narrow s heard))
      end
  end.

(** [for high_longadd - low_longadd > 1 { ... }] (lines 332-362), with a
    budget of [probes] iterations. *)
Fixpoint inner_search (probes : nat) (s : session) : M (error + session) :=
  if wrap64 (high_longadd s - low_longadd s) >? 1 then
    match probes with
    | O => fun _ => OutOfFuel
    | S probes' =>
        r <- search_iteration s ;;
        match r with
        | inl rsp_err => ret (inl rsp_err)
        | inr s' => inner_search probes' s'
        end
    end
  else ret (inr s).

(** Lines 366-387: program the isolated device and reopen the window. *)
Definition assign_short_address (s : session) : M session :=
  let '(highbyte, middlebyte, lowbyte) :=
    split_address (wrap64 (longadd s + 1)) in
  Issue_dali_request 0xB1 highbyte ;;;
  Issue_dali_request 0xB1 middlebyte ;;;
  Issue_dali_request 0xB1 lowbyte ;;;
  Issue_dali_request 0xB7 (address_token (short_add s)) ;;;
  Issue_dali_request 0xAB 0 ;;;                                 (* withdraw *)
  Issue_dali_request (address_token (short_add s)) ON_C ;;;
  Issue_dali_request (address_token (short_add s)) OFF_C ;;;
  let short_add' := uint8 (short_add s + 1) in
  let high := 0xFFFFFF in
  ret (mkSession (low_longadd s) high (midpoint (low_longadd s) high)
                 short_add').

(** [for longadd <= 0xFFFFFF - 2 && short_add <= 64 { ... }]
    (lines 329-391), with a budget of [passes] iterations, each inner
    search having a budget of [probes]. *)
Fixpoint discovery (passes probes : nat) (s : session)
  : M (error + session) :=
  if (longadd s <=? 0xFFFFFF - 2) && (short_add s <=? 64) then
    match passes with
    | O => fun _ => OutOfFuel
    | S passes' =>
        r <- inner_search probes s ;;
        match r with
        | inl rsp_err => ret (inl rsp_err)
        | inr s1 =>
            s2 <- (if negb (high_longadd s1 =? 0xFFFFFF)
                   then assign_short_address s1
                   else ret s1) ;;
            discovery passes' probes s2
        end
    end
  else ret (inr s).

(** [func Initialize_dali(port Port) error], together with the final
    values of its locals. *)
Definition Initialize_dali_session (passes probes : nat)
  : M (option error * session) :=
  Issue_dali_request BROADCAST_C RESET ;;;
  Issue_dali_request BROADCAST_C RESET ;;;
  Issue_dali_request BROADCAST_C OFF_C ;;;
  Issue_dali_request 0xA5 0 ;;;                               (* initialize *)
  Issue_dali_request 0xA5 0 ;;;
  Issue_dali_request 0xA7 0 ;;;                                (* randomize *)
  Issue_dali_request 0xA7 0 ;;;
  r <- discovery passes probes session0 ;;
  match r with
  | inl rsp_err => ret (Some rsp_err, session0)
  | inr s =>
      Issue_dali_request 0xA1 0 ;;;                            (* terminate *)
      err <- Issue_dali_request BROADCAST_C ON_C ;;         (* broadcast on *)
      ret (err, s)
  end.

Definition Initialize_dali (passes probes : nat) : M (option error) :=
  r <- Initialize_dali_session passes probes ;;
  ret (fst r).

End Driver.

Arguments Returned {P A} w a.
Arguments Exited {P A} w e.
Arguments Panicked {P A}.
Arguments OutOfFuel {P A}.

(** ** A scripted serial line, to run the driver on concrete buses *)

(** [replies] are the results of the next reads, in order; once they are
    used up every read returns [quiet]. Every write returns [write_err]
    (with a full byte count when it is [nil]); [written] logs the frames,
    newest first. *)
Record script := mkScript {
  replies : list (list Z * option error);
  quiet : list Z * option error;
  write_err : option error;
  written : list (list Z)
}.

Definition script_Write (p : script) (message : list Z)
  : script * (Z * option error) :=
  (mkScript (replies p) (quiet p) (write_err p) (message :: written p),
   (match write_err p with
    | None => Z.of_nat (length message)
    | Some _ => 0
    end, write_err p)).

Definition script_Read (p : script) (n : nat)
  : script * (list Z * option error) :=
  match replies p with
  | [] => (p, (firstn n (fst (quiet p)), snd (quiet p)))
  | r :: rs =>
      (mkScript rs (quiet p) (write_err p) (written p),
       (firstn n (fst r), snd r))
  end.

Definition script_Close (p : script) : script * option error := (p, None).

#[export] Instance script_Port : Port script := {
  port_Write := script_Write;
  port_Read := script_Read;
  port_Close := script_Close
}.

(** A script none of whose transfers fails. *)
Definition script_ok (p : script) : Prop :=
  write_err p = None /\ snd (quiet p) = None /\
  Forall (fun r => snd r = None) (replies p).

(** The backward-frame buffer of an idle line, and one with a logic 0. *)
Definition idle : list Z * option error := ([0xff; 0xff; 0xff], None).
Definition answer : list Z * option error := ([0xff; 0xfe; 0xff], None).

(** A bus on which no device ever answers. *)
Definition idle_bus : world (P := script) :=
  mkWorld (mkScript [] idle None []) [].

(** A bus on which every read times out. *)
Definition dead_bus : world (P := script) :=
  mkWorld (mkScript [] ([], Some ErrTimeout) None []) [].

(** A port whose writes fail. *)
Definition broken_port : world (P := script) :=
  mkWorld (mkScript [] idle (Some ErrIO) []) [].

(** A bus whose successive reads are [rs], then idle. *)
Definition scripted_bus (rs : list (list Z * option error))
  : world (P := script) :=
  mkWorld (mkScript rs idle None []) [].

(** A bus with one device at long address 5 that answers a compare when
    its address is above the candidate: silent for the candidates
    0x7FFFFF, 0x3FFFFF, ..., 7, then heard at 3, silent at 5, heard at 4. *)
Definition bus_device_above_5 : world (P := script) :=
  scripted_bus (repeat idle 21 ++ [answer; idle; answer]).

(** A bus with one device at long address 5 that answers a compare when
    its address is at most the candidate: every candidate of the search
    from [0, 0xFFFFFF] is at least 0x7FFFFF, so every compare is heard. *)
Definition bus_device_upto_5 : world (P := script) :=
  scripted_bus (repeat answer 24).

(** A bus on which the devices at short addresses 3 and 7 answer the
    scanner's queries (the 4th and the 8th read). *)
Definition bus_3_7 : world (P := script) :=
  scripted_bus (repeat idle 3 ++ [answer] ++ repeat idle 3 ++ [answer]).


(** A bus whose first read succeeds with a single idle byte. *)
Definition short_read_bus : world (P := script) :=
  scripted_bus [([0xff], None)].

(** Observations of an outcome. *)
Definition returned_value {P A} (o : outcome (P := P) A) : option A :=
  match o with Returned _ a => Some a | _ => None end.

Definition exit_error {P A} (o : outcome (P := P) A) : option error :=
  match o with Exited _ e => Some e | _ => None end.

Definition final_history {P A} (o : outcome (P := P) A) : list event :=
  match o with
  | Returned w _ => history w
  | Exited w _ => history w
  | _ => []
  end.

(** The commissioning run on the bus where nobody answers. *)
Definition idle_run : outcome (P := script) (option error * session) :=
  Initialize_dali_session 65 24 idle_bus.

(** ** Vocabulary of the statements *)

(** A buffer deviates from the idle pattern: some byte is not 0xFF. *)
Definition deviates (rsp : list Z) : bool :=
  existsb (fun b => negb (b =? 0xff)) rsp.

(** The bits of a frame as transmitted, most significant bit of each byte
    first. *)
Definition byte_bits (b : Z) : list bool :=
  map (fun k => Z.testbit b (Z.of_nat k)) [7; 6; 5; 4; 3; 2; 1; 0]%nat.

Definition frame_bits (frame : list Z) : list bool :=
  flat_map byte_bits frame.

(** The window of the search is well formed: both bounds are 24-bit long
    addresses, [low < high], and the candidate is their midpoint. *)
Definition window_ok (s : session) : Prop :=
  0 <= low_longadd s /\ low_longadd s < high_longadd s /\
  high_longadd s <= 0xFFFFFF /\
  longadd s = (low_longadd s + high_longadd s) / 2.

(** The events of one pass through the inner loop's body: the three
    search-address bytes of the candidate, the compare command and the
    buffer read back. *)
Definition probe_events (candidate : Z) (rsp : list Z) : list event :=
  let '(highbyte, middlebyte, lowbyte) := split_address candidate in
  [Sent 0xB1 highbyte; Sent 0xB1 middlebyte; Sent 0xB1 lowbyte;
   Sent 0xA9 0; Received rsp].

Definition count_reads (evs : list event) : nat :=
  length (filter (fun e => match e with Received _ => true | _ => false end)
                 evs).

(** A device on the bus, as a history shows it. The device keeps the last
    three bytes it was sent with command 0xB1 as its 24-bit search address
    and puts a logic 0 on the line after a compare exactly when [rule]
    holds of that search address. [answered_by rule reg evs] checks every
    buffer read in [evs] against this behaviour, [reg] being the bytes the
    device holds at the start. *)
Definition search_value (reg : Z * Z * Z) : Z :=
  let '(h, m, l) := reg in h * 65536 + m * 256 + l.

Definition shift_in (reg : Z * Z * Z) (b : Z) : Z * Z * Z :=
  let '(h, m, l) := reg in (m, l, b).

Fixpoint answered_by (rule : Z -> bool) (reg : Z * Z * Z)
  (evs : list event) : bool :=
  match evs with
  | [] => true
  | Sent a c :: evs' =>
      answered_by rule (if a =? 0xB1 then shift_in reg c else reg) evs'
  | Received rsp :: evs' =>
      Bool.eqb (deviates rsp) (rule (search_value reg)) &&
      answered_by rule reg evs'
  end.

(** The session after the buffers [rsps] were read in successive passes
    through the inner loop's body, and the events of those passes. *)
Fixpoint replay (s : session) (rsps : list (list Z)) : session :=
  match rsps with
  | [] => s
  | rsp :: rsps' => replay (narrow s (deviates rsp)) rsps'
  end.

Fixpoint search_events (s : session) (rsps : list (list Z)) : list event :=
  match rsps with
  | [] => []
  | rsp :: rsps' =>
      probe_events (longadd s) rsp ++
      search_events (narrow s (deviates rsp)) rsps'
  end.

(** The buffers read in a history, oldest first. *)
Definition buffers_read (evs : list event) : list (list Z) :=
  flat_map (fun e => match e with Received rsp => [rsp] | Sent _ _ => [] end)
           evs.

(** The events of the scanner's probe of short address [a]. *)
Definition scan_events (a : Z) (rsp : list Z) : list event :=
  [Sent (2 * a + 1) 0xA1; Received rsp] ++
  (if deviates rsp
   then [Sent (2 * a + 1) ON_C; Sent (2 * a + 1) OFF_C]
   else []).

(** The events of probing [a], [a+1], ... with [rsps] read back. *)
Fixpoint scan_history (a : Z) (rsps : list (list Z)) : list event :=
  match rsps with
  | [] => []
  | rsp :: rsps' => scan_events a rsp ++ scan_history (a + 1) rsps'
  end.

(** The short addresses among [a], [a+1], ... whose buffer deviates. *)
Fixpoint occupied (a : Z) (rsps : list (list Z)) : list Z :=
  match rsps with
  | [] => []
  | rsp :: rsps' =>
      (if deviates rsp then [a] else []) ++ occupied (a + 1) rsps'
  end.

(** The events of one assignment (lines 367-380) made from session [s]. *)
Definition assign_events (s : session) : list event :=
  let '(highbyte, middlebyte, lowbyte) :=
    split_address (wrap64 (longadd s + 1)) in
  [Sent 0xB1 highbyte; Sent 0xB1 middlebyte; Sent 0xB1 lowbyte;
   Sent 0xB7 (address_token (short_add s)); Sent 0xAB 0;
   Sent (address_token (short_add s)) ON_C;
   Sent (address_token (short_add s)) OFF_C].

(** The requests with which [Initialize_dali] opens and closes. *)
Definition preamble : list event :=
  [Sent BROADCAST_C RESET; Sent BROADCAST_C RESET; Sent BROADCAST_C OFF_C;
   Sent 0xA5 0; Sent 0xA5 0; Sent 0xA7 0; Sent 0xA7 0].

Definition epilogue : list event :=
  [Sent 0xA1 0; Sent BROADCAST_C ON_C].

(** The address tokens 2k+1 for k = from, ..., upto - 1. *)
Definition tokens (from upto : Z) : list Z :=
  map (fun k => 2 * Z.of_nat k + 1)
      (seq (Z.to_nat from) (Z.to_nat (upto - from))).

(** The requests among the events. *)
Definition count_sent (evs : list event) : nat :=
  length (filter (fun e => match e with Sent _ _ => true | _ => false end)
                 evs).

(** The data bytes of the program-short-address commands (0xB7). *)
Definition programmed (evs : list event) : list Z :=
  flat_map (fun e => match e with
                     | Sent a c => if a =? 0xB7 then [c] else []
                     | Received _ => []
                     end) evs.

(** [I] holds of the port and of every state it reaches, and no transfer
    fails while it holds. *)
Definition reliable {P : Type} `{Port P} (I : P -> Prop) : Prop :=
  forall p, I p ->
    (forall message, I (fst (port_Write p message)) /\
                     snd (snd (port_Write p message)) = None) /\
    (forall n, I (fst (port_Read p n)) /\
               snd (snd (port_Read p n)) = None).

(** [run Inv E m w Q]: from [w] the computation [m] neither panics nor
    exhausts its budget; if it returns, [Inv] holds of the port and [Q] of
    the result; if it ends the process, it does so with an error in [E]. *)
Definition run {P : Type} `{Port P} {A : Type}
  (Inv : P -> Prop) (E : error -> Prop)
  (m : M A) (w : world) (Q : world -> A -> Prop) : Prop :=
  match m w with
  | Returned w' a => Inv (port w') /\ Q w' a
  | Exited _ e => E e
  | Panicked => False
  | OutOfFuel => False
  end.

(** * Frame encoder *)

Lemma bit_loop_from_7 (body : Z -> frame_state -> option frame_state)
  (st : frame_state) : bit_loop body 7 st = Some st.
Proof. reflexivity. Qed.

Lemma create_dali_frame_const (dali_address dali_command : Z) :
  create_dali_frame dali_address dali_command = Some [0x40; 0; 0; 0; 0].
Proof.
  unfold create_dali_frame, encode_operand. cbn [slice_get slice_set].
  cbn. rewrite !bit_loop_from_7. reflexivity.
Qed.

(** C9. For every (address, command) pair the bit-extraction loop
    [for i := 7; i < 0; i++] runs its body zero times (whatever the body,
    the loop hands back the state it was given), so [create_dali_frame]
    returns the 5 bytes 0x40 0 0 0 0: only the start symbol is set and
    every data bit is zero. *)
Theorem create_dali_frame_start_symbol_only
  (dali_address dali_command : Z) :
  (forall body st, bit_loop body 7 st = Some st) /\
  create_dali_frame dali_address dali_command = Some [0x40; 0; 0; 0; 0] /\
  (forall frame, create_dali_frame dali_address dali_command = Some frame ->
     nth 0 frame 0 = 0x40 /\
     frame_bits frame = [false; true] ++ repeat false 38).
Proof.
  split; [exact bit_loop_from_7 |].
  split; [apply create_dali_frame_const |].
  intros frame Hf. rewrite create_dali_frame_const in Hf.
  injection Hf as <-. split; reflexivity.
Qed.

(** C2 (the code departs from it). The encoder never fails and always
    returns 5 bytes, but the 16 logical bits are absent from the frame:
    broadcast-off (0xFF, 0x00) and the opposite operands (0x00, 0xFF) give
    the same frame, whose 16 bit pairs after the start symbol are all
    (0, 0), neither a high-to-low nor a low-to-high pair. *)
Theorem create_dali_frame_drops_operands :
  create_dali_frame 0xff 0x00 = Some [0x40; 0; 0; 0; 0] /\
  create_dali_frame 0x00 0xff = create_dali_frame 0xff 0x00 /\
  frame_bits [0x40; 0; 0; 0; 0] =
    [false; true] ++ concat (repeat [false; false] 16) ++ repeat false 6.
Proof.
  rewrite !create_dali_frame_const. repeat split.
Qed.

(** * Response classification *)

Lemma lxor_ff_test (b : Z) : negb (Z.lxor b 0xff =? 0) = negb (b =? 0xff).
Proof.
  f_equal. destruct (Z.eqb_spec b 0xff) as [-> | Hne].
  - reflexivity.
  - apply Z.eqb_neq. intros Hx. apply Z.lxor_eq in Hx. contradiction.
Qed.

Lemma scan_heard_3 (b0 b1 b2 : Z) :
  scan_heard [b0; b1; b2] = Some (deviates [b0; b1; b2]).
Proof.
  unfold scan_heard, deviates.
  cbv [slice_get bind_opt Z.ltb Z.compare Z.to_nat Pos.to_nat Pos.iter_op
       Nat.add nth_error existsb].
  rewrite !lxor_ff_test.
  destruct (b0 =? 0xff), (b1 =? 0xff), (b2 =? 0xff); reflexivity.
Qed.

Lemma compare_heard_3 (b0 b1 b2 : Z) :
  compare_heard [b0; b1; b2] = Some (deviates [b0; b1; b2]).
Proof.
  unfold compare_heard, deviates.
  cbv [slice_get bind_opt Z.ltb Z.compare Z.to_nat Pos.to_nat Pos.iter_op
       Nat.add nth_error existsb].
  rewrite !lxor_ff_test.
  destruct (b0 =? 0xff), (b1 =? 0xff), (b2 =? 0xff); reflexivity.
Qed.

Lemma deviates_3 (b0 b1 b2 : Z) :
  deviates [b0; b1; b2] = false <-> b0 = 0xff /\ b1 = 0xff /\ b2 = 0xff.
Proof.
  unfold deviates. cbn [existsb].
  destruct (Z.eqb_spec b0 0xff), (Z.eqb_spec b1 0xff), (Z.eqb_spec b2 0xff);
    cbn; intuition congruence.
Qed.

(** C6. Whatever the three bytes of a backward-frame buffer are, the test
    of the address scanner and the test of the commissioner's compare step
    both succeed without a panic and agree: the buffer counts as
    NoResponse ([false]) iff all three bytes are 0xFF, and as Responded
    ([true]) iff at least one byte differs from 0xFF. *)
Theorem response_classification (b0 b1 b2 : Z) :
  (scan_heard [b0; b1; b2] = Some false <->
     b0 = 0xff /\ b1 = 0xff /\ b2 = 0xff) /\
  (scan_heard [b0; b1; b2] = Some true <->
     b0 <> 0xff \/ b1 <> 0xff \/ b2 <> 0xff) /\
  compare_heard [b0; b1; b2] = scan_heard [b0; b1; b2].
Proof.
  rewrite scan_heard_3, compare_heard_3.
  pose proof (deviates_3 b0 b1 b2) as Hd.
  destruct (deviates [b0; b1; b2]) eqn:Hdev.
  - split; [| split]; [split | split |]; try discriminate; try reflexivity.
    + intros Hall. apply Hd in Hall. discriminate.
    + intros _.
      destruct (Z.eq_dec b0 0xff), (Z.eq_dec b1 0xff), (Z.eq_dec b2 0xff);
        try tauto.
      assert (true = false) by (apply Hd; tauto). discriminate.
  - split; [| split]; [split | split |]; try discriminate; try reflexivity.
    + intros _. apply Hd. reflexivity.
    + intros [Hne | [Hne | Hne]]; exfalso; apply Hne; apply Hd; reflexivity.
Qed.

(** * Arithmetic of the search window *)

Lemma wrap64_small (z : Z) : - 2 ^ 63 <= z < 2 ^ 63 -> wrap64 z = z.
Proof. intros Hz. unfold wrap64. rewrite Z.mod_small; lia. Qed.

Lemma uint8_small (z : Z) : 0 <= z < 256 -> uint8 z = z.
Proof. intros Hz. unfold uint8. apply Z.mod_small. exact Hz. Qed.

Lemma midpoint_small (low high : Z) :
  0 <= low <= 0xFFFFFF -> 0 <= high <= 0xFFFFFF ->
  midpoint low high = (low + high) / 2.
Proof.
  intros Hl Hh. unfold midpoint. rewrite wrap64_small by lia.
  apply Z.quot_div_nonneg; lia.
Qed.

Lemma split_address_value (candidate : Z) :
  0 <= candidate <= 0xFFFFFF ->
  search_value (split_address candidate) = candidate.
Proof.
  intros Hc. unfold split_address, search_value, uint8.
  rewrite !Z.shiftr_div_pow2 by lia.
  change (2 ^ 16) with 65536. change (2 ^ 8) with 256.
  Z.to_euclidean_division_equations. lia.
Qed.

Lemma address_token_small (x : Z) :
  0 <= x <= 127 -> address_token x = 2 * x + 1.
Proof.
  intros Hx. unfold address_token. rewrite Z.shiftl_mul_pow2 by lia.
  change (2 ^ 1) with 2.
  rewrite (uint8_small (x * 2)) by lia. rewrite uint8_small by lia. lia.
Qed.

Lemma narrow_window (s : session) (heard : bool) :
  window_ok s -> high_longadd s - low_longadd s > 1 ->
  window_ok (narrow s heard) /\
  1 <= high_longadd (narrow s heard) - low_longadd (narrow s heard) /\
  high_longadd (narrow s heard) - low_longadd (narrow s heard)
    < high_longadd s - low_longadd s /\
  2 * (high_longadd (narrow s heard) - low_longadd (narrow s heard))
    <= high_longadd s - low_longadd s + 1.
Proof.
  intros (Hl & Hlh & Hh & Hmid) Hw. unfold window_ok, narrow.
  destruct heard; cbn [low_longadd high_longadd longadd];
    rewrite midpoint_small by (rewrite ?Hmid;
      Z.to_euclidean_division_equations; lia);
    rewrite Hmid; Z.to_euclidean_division_equations; lia.
Qed.

Lemma session0_window : window_ok session0.
Proof. unfold window_ok, session0. cbn. repeat split; try lia. Qed.

(** The device's view of one pass: it holds the candidate when it hears
    the compare. *)
Lemma answered_by_probe (rule : Z -> bool) (reg : Z * Z * Z)
  (candidate : Z) (rsp : list Z) (evs : list event) :
  answered_by rule reg (probe_events candidate rsp ++ evs) =
  Bool.eqb (deviates rsp) (rule (search_value (split_address candidate))) &&
  answered_by rule (split_address candidate) evs.
Proof.
  unfold probe_events.
  destruct (split_address candidate) as [[hb mb] lb].
  destruct reg as [[h m] l]. reflexivity.
Qed.

Lemma count_reads_search_events (rsps : list (list Z)) (s : session) :
  count_reads (search_events s rsps) = length rsps.
Proof.
  revert s. induction rsps as [| rsp rsps IH]; intros s.
  - reflexivity.
  - cbn [search_events]. unfold count_reads in *.
    rewrite filter_app, length_app, IH.
    unfold probe_events. destruct (split_address (longadd s)) as [[hb mb] lb].
    reflexivity.
Qed.

(** While every read is answered as a device at [T] answering
    "my long address is above the candidate" would, [T] stays inside the
    window (low, high]. *)
Lemma replay_brackets (T : Z) (rsps : list (list Z)) :
  forall (s : session) (reg : Z * Z * Z),
  0 <= low_longadd s -> low_longadd s <= high_longadd s ->
  high_longadd s <= 0xFFFFFF ->
  longadd s = (low_longadd s + high_longadd s) / 2 ->
  low_longadd s < T <= high_longadd s ->
  answered_by (fun candidate => candidate <? T) reg (search_events s rsps)
    = true ->
  low_longadd (replay s rsps) < T <= high_longadd (replay s rsps).
Proof.
  induction rsps as [| rsp rsps IH]; intros s reg Hl Hlh Hh Hmid HT Hans.
  - exact HT.
  - cbn [search_events replay] in *.
    rewrite answered_by_probe in Hans.
    apply andb_true_iff in Hans as [Hrsp Hrest].
    apply eqb_prop in Hrsp.
    rewrite split_address_value in Hrsp
      by (rewrite Hmid; Z.to_euclidean_division_equations; lia).
    apply (IH _ _) in Hrest; [exact Hrest | | | | |];
      unfold narrow; rewrite Hrsp;
      destruct (Z.ltb_spec (longadd s) T) as [Hlt | Hge];
      cbn [low_longadd high_longadd longadd];
      try (rewrite midpoint_small by (rewrite ?Hmid;
             Z.to_euclidean_division_equations; lia));
      rewrite ?Hmid in *; try (Z.to_euclidean_division_equations; lia).
Qed.

(** * Reasoning about the driver's monad *)

Section Rules.

Context {P : Type} `{Port P}.
Variable Inv : P -> Prop.
Variable E : error -> Prop.

Hypothesis Inv_Write : forall p message p' n err,
  Inv p -> port_Write p message = (p', (n, err)) ->
  match err with None => Inv p' | Some e => E e end.

Hypothesis Inv_Read : forall p k p' data err,
  Inv p -> port_Read p k = (p', (data, err)) ->
  match err with None => Inv p' | Some e => E e end.

Lemma history_record (p : P) (e : event) (w : world (P := P)) :
  history (mkWorld p (e :: log w)) = history w ++ [e].
Proof.
  unfold history. cbn [log rev_append].
  rewrite !rev_append_rev, app_nil_r. reflexivity.
Qed.

Lemma run_ret {A} (a : A) (w : world (P := P)) (Q : world (P := P) -> A -> Prop) :
  Inv (port w) -> Q w a -> run Inv E (ret a) w Q.
Proof. intros HI HQ. unfold run, ret. auto. Qed.

Lemma run_bind {A B} (m : M A) (k : A -> M B) (w : world (P := P))
  (Q : world (P := P) -> B -> Prop) :
  run Inv E m w (fun w1 a => run Inv E (k a) w1 Q) ->
  run Inv E (bind m k) w Q.
Proof.
  unfold run, bind. destruct (m w) as [w1 a | w1 e | |]; tauto.
Qed.

Lemma run_conseq {A} (m : M A) (w : world (P := P)) (Q Q' : world (P := P) -> A -> Prop) :
  run Inv E m w Q ->
  (forall w' a, Inv (port w') -> Q w' a -> Q' w' a) ->
  run Inv E m w Q'.
Proof.
  unfold run. destruct (m w) as [w1 a | w1 e | |]; try tauto.
  intros [HI HQ] Himp. auto.
Qed.

Lemma run_Issue (a c : Z) (w : world (P := P)) (Q : world (P := P) -> option error -> Prop) :
  Inv (port w) ->
  (forall w', Inv (port w') -> history w' = history w ++ [Sent a c] ->
              Q w' None) ->
  run Inv E (Issue_dali_request a c) w Q.
Proof.
  intros HI HQ. unfold run, Issue_dali_request, bind, record, Write.
  rewrite create_dali_frame_const. cbn [port log].
  destruct (port_Write (port w) [0x40; 0; 0; 0; 0]) as [p' [n err]] eqn:Hw.
  pose proof (Inv_Write _ _ _ _ _ HI Hw) as Hstep.
  destruct err as [e |]; cbn.
  - exact Hstep.
  - split; [exact Hstep |]. apply HQ; [exact Hstep | apply history_record].
Qed.

Lemma store_bytes_length (buf data : list Z) :
  length (store_bytes buf data) = length buf.
Proof.
  unfold store_bytes. rewrite length_firstn, length_app, length_skipn. lia.
Qed.

Lemma run_Wait (w : world (P := P)) (Q : world (P := P) -> list Z * option error -> Prop) :
  Inv (port w) ->
  (forall w' rsp, Inv (port w') -> length rsp = 3%nat ->
                  history w' = history w ++ [Received rsp] ->
                  Q w' (rsp, None)) ->
  run Inv E Wait_dali_response w Q.
Proof.
  intros HI HQ. unfold run, Wait_dali_response, bind, record, Read.
  destruct (port_Read (port w) (length [0; 0; 0])) as [p' [data err]] eqn:Hr.
  pose proof (Inv_Read _ _ _ _ _ HI Hr) as Hstep.
  destruct err as [e |]; cbn -[store_bytes].
  - exact Hstep.
  - split; [exact Hstep |].
    apply HQ; [exact Hstep | apply store_bytes_length |
               apply history_record].
Qed.


(** ** The commissioner's inner search *)

Lemma compare_heard_len3 (rsp : list Z) :
  length rsp = 3%nat -> compare_heard rsp = Some (deviates rsp).
Proof.
  destruct rsp as [| b0 [| b1 [| b2 [| b3 rsp]]]]; try discriminate.
  intros _. apply compare_heard_3.
Qed.

Lemma scan_heard_len3 (rsp : list Z) :
  length rsp = 3%nat -> scan_heard rsp = Some (deviates rsp).
Proof.
  destruct rsp as [| b0 [| b1 [| b2 [| b3 rsp]]]]; try discriminate.
  intros _. apply scan_heard_3.
Qed.

Lemma run_search_iteration (s : session) (w : world (P := P))
  (Q : world (P := P) -> error + session -> Prop) :
  Inv (port w) ->
  (forall w' rsp, Inv (port w') -> length rsp = 3%nat ->
     history w' = history w ++ probe_events (longadd s) rsp ->
     Q w' (inr (narrow s (deviates rsp)))) ->
  run Inv E (search_iteration s) w Q.
Proof.
  intros HI HQ. unfold search_iteration, probe_events in *.
  destruct (split_address (longadd s)) as [[hb mb] lb].
  apply run_bind, run_Issue; [exact HI |]. intros w1 HI1 H1.
  apply run_bind, run_Issue; [exact HI1 |]. intros w2 HI2 H2.
  apply run_bind, run_Issue; [exact HI2 |]. intros w3 HI3 H3.
  apply run_bind, run_Issue; [exact HI3 |]. intros w4 HI4 H4.
  apply run_bind, run_Wait; [exact HI4 |]. intros w5 rsp HI5 Hlen H5.
  cbn [fst snd]. rewrite (compare_heard_len3 rsp Hlen).
  apply run_ret; [exact HI5 |]. apply HQ; [exact HI5 | exact Hlen |].
  rewrite H5, H4, H3, H2, H1, <- !app_assoc. reflexivity.
Qed.

Lemma run_inner_search (probes : nat) :
  forall (s : session) (w : world (P := P)),
  Inv (port w) -> window_ok s ->
  high_longadd s - low_longadd s <= 2 ^ Z.of_nat probes ->
  run Inv E (inner_search probes s) w (fun w' r =>
    exists rsps,
      r = inr (replay s rsps) /\
      history w' = history w ++ search_events s rsps /\
      (length rsps <= probes)%nat /\
      window_ok (replay s rsps) /\
      high_longadd (replay s rsps) - low_longadd (replay s rsps) = 1).
Proof.
  induction probes as [| probes IH]; intros s w HI Hok Hwidth.
  - assert (Hone : high_longadd s - low_longadd s = 1)
      by (destruct Hok as (? & ? & ? & ?); cbn in Hwidth; lia).
    cbn [inner_search]. rewrite wrap64_small by lia.
    destruct (Z.gtb_spec (high_longadd s - low_longadd s) 1) as [Hgt | Hle];
      [lia |].
    apply run_ret; [exact HI |]. exists []. cbn.
    rewrite app_nil_r. auto.
  - cbn [inner_search].
    pose proof Hok as (Hl & Hlh & Hh & Hmid).
    rewrite wrap64_small by lia.
    destruct (Z.gtb_spec (high_longadd s - low_longadd s) 1) as [Hgt | Hle].
    + apply run_bind, run_search_iteration; [exact HI |].
      intros w1 rsp HI1 Hlen Hhist.
      destruct (narrow_window s (deviates rsp) Hok ltac:(lia))
        as (Hok' & Hge1 & Hlt & Hhalf).
      eapply run_conseq.
      * apply IH; [exact HI1 | exact Hok' |].
        rewrite Nat2Z.inj_succ, Z.pow_succ_r in Hwidth by lia. lia.
      * cbn beta. intros w' r _ (rsps & -> & Hh' & Hlen' & Hok'' & Hone).
        exists (rsp :: rsps). cbn [replay search_events length].
        rewrite Hh', Hhist, <- app_assoc.
        split; [reflexivity |]. split; [reflexivity |].
        split; [lia |]. split; assumption.
    + apply run_ret; [exact HI |]. exists []. cbn [replay search_events length].
      rewrite app_nil_r.
      split; [reflexivity |]. split; [reflexivity |].
      split; [lia |]. split; [assumption | lia].
Qed.

(** ** Assigning a short address *)

Lemma run_assign_short_address (s : session) (w : world (P := P))
  (Q : world (P := P) -> session -> Prop) :
  Inv (port w) ->
  (forall w', Inv (port w') ->
     Q w' (mkSession (low_longadd s) 0xFFFFFF
                     (midpoint (low_longadd s) 0xFFFFFF)
                     (uint8 (short_add s + 1)))) ->
  run Inv E (assign_short_address s) w Q.
Proof.
  intros HI HQ. unfold assign_short_address.
  destruct (split_address (wrap64 (longadd s + 1))) as [[hb mb] lb].
  apply run_bind, run_Issue; [exact HI |]. intros w1 HI1 _.
  apply run_bind, run_Issue; [exact HI1 |]. intros w2 HI2 _.
  apply run_bind, run_Issue; [exact HI2 |]. intros w3 HI3 _.
  apply run_bind, run_Issue; [exact HI3 |]. intros w4 HI4 _.
  apply run_bind, run_Issue; [exact HI4 |]. intros w5 HI5 _.
  apply run_bind, run_Issue; [exact HI5 |]. intros w6 HI6 _.
  apply run_bind, run_Issue; [exact HI6 |]. intros w7 HI7 _.
  apply run_ret; [exact HI7 |]. apply HQ. exact HI7.
Qed.

(** ** The discovery loop *)

Lemma replay_short_add (rsps : list (list Z)) :
  forall s, short_add (replay s rsps) = short_add s.
Proof.
  induction rsps as [| rsp rsps IH]; intros s; [reflexivity |].
  cbn [replay]. rewrite IH. reflexivity.
Qed.

Lemma discovery_done (passes probes : nat) (s : session) :
  (longadd s <=? 0xFFFFFF - 2) && (short_add s <=? 64) = false ->
  discovery passes probes s = ret (P := P) (inr s).
Proof. intros Hg. destruct passes; cbn [discovery]; rewrite Hg; reflexivity. Qed.

(** From a well-formed window and [short_add] devices assigned, the
    discovery loop needs at most [65 - short_add] passes. *)
Lemma run_discovery (passes : nat) :
  forall (s : session) (w : world (P := P)),
  Inv (port w) -> window_ok s -> 0 <= short_add s <= 65 ->
  65 - short_add s <= Z.of_nat passes ->
  run Inv E (discovery passes 24 s) w (fun w' r =>
    exists s', r = inr s' /\ short_add s <= short_add s' <= 65).
Proof.
  induction passes as [| passes IH]; intros s w HI Hok Hsa Hfuel;
    cbn [discovery];
    destruct ((longadd s <=? 0xFFFFFF - 2) && (short_add s <=? 64)) eqn:Hg;
    try (apply run_ret; [exact HI |]; exists s; split; [reflexivity | lia]).
  - apply andb_true_iff in Hg as [_ Hle]. apply Z.leb_le in Hle. lia.
  - apply andb_true_iff in Hg as [_ Hle]. apply Z.leb_le in Hle.
    apply run_bind. eapply run_conseq.
    + apply (run_inner_search 24 s w HI Hok).
      destruct Hok as (Hl & Hlh & Hh & _).
      change (2 ^ Z.of_nat 24) with 16777216. lia.
    + cbn beta. intros w1 r HI1 (rsps & -> & _ & _ & Hok1 & Hone).
      pose proof (replay_short_add rsps s) as Hsa1.
      set (s1 := replay s rsps) in *.
      destruct (Z.eqb_spec (high_longadd s1) 0xFFFFFF) as [Hcap | Hcap];
        cbn [negb].
      * apply run_bind, run_ret; [exact HI1 |].
        rewrite discovery_done.
        -- apply run_ret; [exact HI1 |]. exists s1. split; [reflexivity | lia].
        -- destruct Hok1 as (Hl1 & Hlh1 & Hh1 & Hmid1).
           apply andb_false_iff. left. apply Z.leb_gt.
           rewrite Hmid1. Z.to_euclidean_division_equations. lia.
      * apply run_bind, run_assign_short_address; [exact HI1 |].
        intros w2 HI2. eapply run_conseq.
        -- apply IH; [exact HI2 | | |];
             destruct Hok1 as (Hl1 & Hlh1 & Hh1 & Hmid1);
             cbn [low_longadd high_longadd longadd short_add];
             rewrite ?Hsa1, ?uint8_small by lia; try lia.
           unfold window_ok. cbn [low_longadd high_longadd longadd].
           rewrite midpoint_small by lia. repeat split; lia.
        -- cbn beta. intros w' r _ (s' & -> & Hs').
           cbn [short_add] in Hs'. rewrite Hsa1, uint8_small in Hs' by lia.
           exists s'. split; [reflexivity | lia].
Qed.

Lemma run_Initialize_dali_session (w : world (P := P)) :
  Inv (port w) ->
  run Inv E (Initialize_dali_session 65 24) w (fun w' r =>
    fst r = None /\ 0 <= short_add (snd r) <= 65).
Proof.
  intros HI. unfold Initialize_dali_session.
  apply run_bind, run_Issue; [exact HI |]. intros w1 HI1 _.
  apply run_bind, run_Issue; [exact HI1 |]. intros w2 HI2 _.
  apply run_bind, run_Issue; [exact HI2 |]. intros w3 HI3 _.
  apply run_bind, run_Issue; [exact HI3 |]. intros w4 HI4 _.
  apply run_bind, run_Issue; [exact HI4 |]. intros w5 HI5 _.
  apply run_bind, run_Issue; [exact HI5 |]. intros w6 HI6 _.
  apply run_bind, run_Issue; [exact HI6 |]. intros w7 HI7 _.
  apply run_bind. eapply run_conseq.
  - apply (run_discovery 65 session0 w7 HI7 session0_window);
      cbn [session0 short_add]; lia.
  - cbn beta. intros w8 r HI8 (s' & -> & Hs'). cbn [session0 short_add] in Hs'.
    apply run_bind, run_Issue; [exact HI8 |]. intros w9 HI9 _.
    apply run_bind, run_Issue; [exact HI9 |]. intros w10 HI10 _.
    apply run_ret; [exact HI10 |]. cbn [fst snd]. split; [reflexivity | lia].
Qed.

(** ** The address scanner *)

Lemma slice_set_last (xs : list Z) (v : Z) :
  slice_set (xs ++ [0]) (Z.of_nat (length xs)) v = Some (xs ++ [v]).
Proof.
  unfold slice_set. rewrite length_app. cbn [length].
  replace ((0 <=? Z.of_nat (length xs)) &&
           (Z.of_nat (length xs) <? Z.of_nat (length xs + 1))) with true
    by (symmetry; apply andb_true_iff; split;
        [apply Z.leb_le | apply Z.ltb_lt]; lia).
  rewrite Nat2Z.id.
  rewrite firstn_app, firstn_all, Nat.sub_diag. cbn [firstn].
  rewrite app_nil_r.
  replace (S (length xs)) with (length (xs ++ [0]))
    by (rewrite length_app; cbn; lia).
  rewrite skipn_all. reflexivity.
Qed.

Lemma run_scan_probe (d : Z) (xs : list Z) (w : world (P := P))
  (Q : world (P := P) -> scan_state -> Prop) :
  Inv (port w) -> 0 <= d < 64 -> Z.of_nat (length xs) <= d ->
  (forall w' rsp, Inv (port w') -> length rsp = 3%nat ->
     history w' = history w ++ scan_events d rsp ->
     let xs' := xs ++ map (fun a => 2 * a + 1)
                          (if deviates rsp then [d] else []) in
     Q w' (mkScan (xs' ++ [0]) (Z.of_nat (length xs')))) ->
  run Inv E (scan_probe d (mkScan (xs ++ [0]) (Z.of_nat (length xs)))) w Q.
Proof.
  intros HI Hd Hxs HQ. unfold scan_probe.
  rewrite address_token_small by lia.
  apply run_bind, run_Issue; [exact HI |]. intros w1 HI1 H1.
  apply run_bind, run_Wait; [exact HI1 |]. intros w2 rsp HI2 Hlen H2.
  cbn [fst]. rewrite (scan_heard_len3 rsp Hlen).
  destruct (deviates rsp) eqn:Hdev.
  - apply run_bind, run_Issue; [exact HI2 |]. intros w3 HI3 H3.
    apply run_bind, run_Issue; [exact HI3 |]. intros w4 HI4 H4.
    cbn [response short_addresses]. rewrite slice_set_last.
    apply run_ret; [exact HI4 |].
    specialize (HQ w4 rsp HI4 Hlen). rewrite Hdev in HQ. cbn [map] in HQ.
    rewrite length_app in HQ. cbn [length] in HQ.
    rewrite uint8_small by lia.
    replace (Z.of_nat (length xs) + 1) with (Z.of_nat (length xs + 1)) by lia.
    apply HQ. unfold scan_events. rewrite Hdev.
    rewrite H4, H3, H2, H1, <- !app_assoc. reflexivity.
  - apply run_ret; [exact HI2 |].
    specialize (HQ w2 rsp HI2 Hlen). rewrite Hdev in HQ. cbn [map] in HQ.
    rewrite app_nil_r in HQ. apply HQ.
    unfold scan_events. rewrite Hdev.
    rewrite H2, H1, <- !app_assoc. reflexivity.
Qed.

Lemma run_scan_rounds (n : nat) :
  forall (d : Z) (xs : list Z) (w : world (P := P)),
  d = 64 - Z.of_nat n -> 0 <= d -> Z.of_nat (length xs) <= d ->
  Inv (port w) ->
  run Inv E (scan_rounds n d (mkScan (xs ++ [0]) (Z.of_nat (length xs)))) w
    (fun w' st' => exists rsps,
       length rsps = n /\
       history w' = history w ++ scan_history d rsps /\
       response st' =
         (xs ++ map (fun a => 2 * a + 1) (occupied d rsps)) ++ [0]).
Proof.
  induction n as [| n IH]; intros d xs w Hd Hd0 Hxs HI;
    cbn [scan_rounds];
    destruct (Z.ltb_spec d 64) as [Hlt | Hge]; try lia.
  - apply run_ret; [exact HI |]. exists []. cbn.
    rewrite !app_nil_r. auto.
  - apply run_bind, run_scan_probe; [exact HI | lia | exact Hxs |].
    intros w1 rsp HI1 Hlen Hhist xs'.
    rewrite uint8_small by lia.
    eapply run_conseq.
    + apply (IH (d + 1) xs' w1); [lia | lia | | exact HI1].
      subst xs'. rewrite length_app, length_map.
      destruct (deviates rsp); cbn [length]; lia.
    + cbn beta. intros w' st' _ (rsps & Hn & Hh' & Hresp).
      exists (rsp :: rsps). cbn [length scan_history occupied].
      split; [lia |]. split.
      * rewrite Hh', Hhist, <- app_assoc. reflexivity.
      * rewrite Hresp. subst xs'. rewrite map_app, <- !app_assoc.
        reflexivity.
Qed.

Lemma run_Scan_addresses (w : world (P := P)) :
  Inv (port w) ->
  run Inv E Scan_addresses w (fun w' r => exists rsps,
    length rsps = 64%nat /\
    history w' = history w ++ [Sent BROADCAST_C OFF_C] ++
                 scan_history 0 rsps ++ [Sent BROADCAST_C ON_C] /\
    r = (map (fun a => 2 * a + 1) (occupied 0 rsps) ++ [0], None)).
Proof.
  intros HI. unfold Scan_addresses.
  apply run_bind, run_Issue; [exact HI |]. intros w1 HI1 H1.
  apply run_bind. eapply run_conseq.
  - apply (run_scan_rounds 64 0 [] w1); [reflexivity | lia | cbn; lia |
                                          exact HI1].
  - cbn beta. intros w2 st HI2 (rsps & Hlen & H2 & Hresp).
    apply run_bind, run_Issue; [exact HI2 |]. intros w3 HI3 H3.
    apply run_ret; [exact HI3 |]. exists rsps.
    split; [exact Hlen |]. split.
    + rewrite H3, H2, H1, <- !app_assoc. reflexivity.
    + rewrite Hresp. reflexivity.
Qed.

End Rules.

(** ** Reading a [run] *)

Section Reading.

Context {P : Type} `{Port P}.

Lemma any_Write (p : P) (message : list Z) (p' : P) (n : Z)
  (err : option error) :
  True -> port_Write p message = (p', (n, err)) ->
  match err with None => True | Some e => True end.
Proof. intros _ _. destruct err; exact I. Qed.

Lemma any_Read (p : P) (k : nat) (p' : P) (data : list Z)
  (err : option error) :
  True -> port_Read p k = (p', (data, err)) ->
  match err with None => True | Some e => True end.
Proof. intros _ _. destruct err; exact I. Qed.

Lemma reliable_Write (I : P -> Prop) (HI : reliable I)
  (p : P) (message : list Z) (p' : P) (n : Z) (err : option error) :
  I p -> port_Write p message = (p', (n, err)) ->
  match err with None => I p' | Some e => False end.
Proof.
  intros Hp Hw. destruct (HI p Hp) as [Hwr _].
  destruct (Hwr message) as [Hnext Hnone]. rewrite Hw in Hnext, Hnone.
  cbn in Hnext, Hnone. subst err. exact Hnext.
Qed.

Lemma reliable_Read (I : P -> Prop) (HI : reliable I)
  (p : P) (k : nat) (p' : P) (data : list Z) (err : option error) :
  I p -> port_Read p k = (p', (data, err)) ->
  match err with None => I p' | Some e => False end.
Proof.
  intros Hp Hr. destruct (HI p Hp) as [_ Hrd].
  destruct (Hrd k) as [Hnext Hnone]. rewrite Hr in Hnext, Hnone.
  cbn in Hnext, Hnone. subst err. exact Hnext.
Qed.

Lemma run_any {A} (m : M A) (w : world (P := P))
  (Q : world (P := P) -> A -> Prop) :
  run (fun _ => True) (fun _ => True) m w Q ->
  m w <> OutOfFuel /\ m w <> Panicked /\
  forall w' a, m w = Returned w' a -> Q w' a.
Proof.
  unfold run. destruct (m w) as [w1 a1 | w1 e | |]; try tauto.
  - intros [_ HQ]. repeat split; try discriminate.
    intros w' a Heq. injection Heq as <- <-. exact HQ.
  - intros _. repeat split; discriminate.
Qed.

Lemma run_reliable {A} (I : P -> Prop) (m : M A) (w : world (P := P))
  (Q : world (P := P) -> A -> Prop) :
  run I (fun _ => False) m w Q ->
  exists w' a, m w = Returned w' a /\ Q w' a.
Proof.
  unfold run. destruct (m w) as [w1 a1 | w1 e | |]; try tauto.
  intros [_ HQ]. exists w1, a1. auto.
Qed.

End Reading.

(** * The commissioner's search window *)

Section Search.

Context {P : Type} `{Port P}.

Lemma window_width (s : session) :
  window_ok s -> high_longadd s - low_longadd s <= 2 ^ Z.of_nat 24.
Proof. intros (Hl & Hlh & Hh & _). change (2 ^ Z.of_nat 24) with 16777216. lia. Qed.

(** C5. Search-window invariant. The window the commissioner starts from
    is well formed (0 <= low < high <= 0xFFFFFF). From any well-formed
    window: a pass through the body of the inner loop, entered with
    high - low > 1, leaves the window well formed and strictly narrower;
    the loop needs at most 24 passes, never panics, and whenever it
    returns the window is well formed with high - low = 1; on a port whose
    transfers never fail it does return. Reopening the window after an
    assignment (high back to 0xFFFFFF) gives a well-formed window again,
    wider than 1. *)
Theorem search_window_invariant (s : session) (w : world (P := P))
  (Hok : window_ok s) :
  window_ok session0 /\
  (high_longadd s - low_longadd s > 1 ->
   forall w' r, search_iteration s w = Returned w' r ->
     exists s', r = inr s' /\ window_ok s' /\
       1 <= high_longadd s' - low_longadd s'
         < high_longadd s - low_longadd s) /\
  (inner_search 24 s w <> OutOfFuel /\ inner_search 24 s w <> Panicked) /\
  (forall w' r, inner_search 24 s w = Returned w' r ->
     exists s', r = inr s' /\ window_ok s' /\
       high_longadd s' - low_longadd s' = 1) /\
  (forall I : P -> Prop, reliable I -> I (port w) ->
     exists w' s', inner_search 24 s w = Returned w' (inr s') /\
       window_ok s' /\ high_longadd s' - low_longadd s' = 1) /\
  (high_longadd s - low_longadd s = 1 -> high_longadd s <> 0xFFFFFF ->
   forall w' s', assign_short_address s w = Returned w' s' ->
     window_ok s' /\ high_longadd s' - low_longadd s' > 1).
Proof.
  split; [exact session0_window |]. split; [| split; [| split; [| split]]].
  - intros Hwide w' r Hrun.
    assert (Hstep : run (fun _ => True) (fun _ => True) (search_iteration s) w
              (fun _ r => exists s', r = inr s' /\ window_ok s' /\
                 1 <= high_longadd s' - low_longadd s'
                   < high_longadd s - low_longadd s)).
    { apply (run_search_iteration _ _ any_Write any_Read); [exact I |].
      intros w1 rsp _ _ _.
      destruct (narrow_window s (deviates rsp) Hok Hwide) as (? & ? & ? & _).
      eexists. split; [reflexivity |]. split; [assumption | lia]. }
    apply run_any in Hstep as (_ & _ & Hret). exact (Hret w' r Hrun).
  - pose proof (run_inner_search _ _ any_Write any_Read 24 s w I Hok
                  (window_width s Hok)) as Hrun.
    apply run_any in Hrun as (Hfuel & Hpanic & _). split; assumption.
  - intros w' r Hret.
    pose proof (run_inner_search _ _ any_Write any_Read 24 s w I Hok
                  (window_width s Hok)) as Hrun.
    apply run_any in Hrun as (_ & _ & Hpost).
    destruct (Hpost w' r Hret) as (rsps & -> & _ & _ & Hok' & Hone).
    eexists. split; [reflexivity |]. split; assumption.
  - intros Iv Hrel Hport.
    pose proof (run_inner_search Iv _ (reliable_Write Iv Hrel)
                  (reliable_Read Iv Hrel) 24 s w Hport Hok
                  (window_width s Hok)) as Hrun.
    apply run_reliable in Hrun
      as (w' & r & Hret & rsps & -> & _ & _ & Hok' & Hone).
    exists w'. eexists. split; [exact Hret |]. split; assumption.
  - intros Hone Hcap w' s' Hret.
    assert (Hstep : run (fun _ => True) (fun _ => True)
              (assign_short_address s) w
              (fun _ s' => window_ok s' /\
                 high_longadd s' - low_longadd s' > 1)).
    { apply (run_assign_short_address _ _ any_Write); [exact I |].
      intros w1 _. destruct Hok as (Hl & Hlh & Hh & _).
      unfold window_ok. cbn [low_longadd high_longadd longadd].
      rewrite midpoint_small by lia. repeat split; lia. }
    apply run_any in Hstep as (_ & _ & Hpost). exact (Hpost w' s' Hret).
Qed.

(** X15. What the inner loop computes when the responses run the other
    way. For every T in [1, 0xFFFFFF] and every port: each pass through the
    inner loop's body sends the candidate as three search-address bytes
    and a compare, moves low up to the candidate when the buffer read
    shows a response and high down to the candidate when it shows none,
    and recomputes the candidate as (low + high) / 2; started from the
    window [0, 0xFFFFFF] the loop ends within at most 24 passes (24 reads)
    and never panics; whenever it returns, high - low = 1, and if every
    buffer read showed a response exactly when the candidate sent was
    below T, then low + 1 = T = high; on a port whose transfers never fail
    it does return. *)
Theorem inner_search_isolates_target (T : Z) (w : world (P := P))
  (HT : 1 <= T <= 0xFFFFFF) :
  (forall s w0 w' r, window_ok s ->
     search_iteration s w0 = Returned w' r ->
     exists rsp s',
       history w' = history w0 ++ probe_events (longadd s) rsp /\
       r = inr s' /\
       low_longadd s' =
         (if deviates rsp then longadd s else low_longadd s) /\
       high_longadd s' =
         (if deviates rsp then high_longadd s else longadd s) /\
       longadd s' = (low_longadd s' + high_longadd s') / 2) /\
  (inner_search 24 session0 w <> OutOfFuel /\
   inner_search 24 session0 w <> Panicked) /\
  (forall w' r, inner_search 24 session0 w = Returned w' r ->
     exists s' evs,
       r = inr s' /\ history w' = history w ++ evs /\
       (count_reads evs <= 24)%nat /\
       high_longadd s' - low_longadd s' = 1 /\
       (answered_by (fun candidate => candidate <? T) (0, 0, 0) evs = true ->
        low_longadd s' + 1 = T /\ high_longadd s' = T)) /\
  (forall I : P -> Prop, reliable I -> I (port w) ->
     exists w' s', inner_search 24 session0 w = Returned w' (inr s')).
Proof.
  split; [| split; [| split]].
  - intros s w0 w' r Hok Hret.
    assert (Hstep : run (fun _ => True) (fun _ => True) (search_iteration s)
              w0 (fun w1 r => exists rsp,
                    history w1 = history w0 ++ probe_events (longadd s) rsp
                    /\ r = inr (narrow s (deviates rsp)))).
    { apply (run_search_iteration _ _ any_Write any_Read); [exact I |].
      intros w1 rsp _ _ Hh. exists rsp. auto. }
    apply run_any in Hstep as (_ & _ & Hpost).
    destruct (Hpost w' r Hret) as (rsp & Hh & ->).
    exists rsp, (narrow s (deviates rsp)).
    split; [exact Hh |]. split; [reflexivity |].
    destruct Hok as (Hl & Hlh & Hh' & Hmid).
    unfold narrow. cbn [low_longadd high_longadd longadd].
    split; [reflexivity |]. split; [reflexivity |].
    apply midpoint_small;
      destruct (deviates rsp); rewrite ?Hmid;
      Z.to_euclidean_division_equations; lia.
  - pose proof (run_inner_search _ _ any_Write any_Read 24 session0 w I
                  session0_window (window_width _ session0_window)) as Hrun.
    apply run_any in Hrun as (Hfuel & Hpanic & _). split; assumption.
  - intros w' r Hret.
    pose proof (run_inner_search _ _ any_Write any_Read 24 session0 w I
                  session0_window (window_width _ session0_window)) as Hrun.
    apply run_any in Hrun as (_ & _ & Hpost).
    destruct (Hpost w' r Hret) as (rsps & -> & Hh & Hlen & Hok' & Hone).
    exists (replay session0 rsps), (search_events session0 rsps).
    split; [reflexivity |]. split; [exact Hh |].
    split; [rewrite count_reads_search_events; exact Hlen |].
    split; [exact Hone |].
    intros Hans.
    apply (replay_brackets T rsps session0 (0, 0, 0)) in Hans;
      cbn [session0 low_longadd high_longadd longadd]; try lia.
    reflexivity.
  - intros Iv Hrel Hport.
    pose proof (run_inner_search Iv _ (reliable_Write Iv Hrel)
                  (reliable_Read Iv Hrel) 24 session0 w Hport
                  session0_window (window_width _ session0_window)) as Hrun.
    apply run_reliable in Hrun as (w' & r & Hret & rsps & -> & _).
    exists w'. eexists. exact Hret.
Qed.

End Search.

(** * The address scanner *)

Section Scanner.

Context {P : Type} `{Port P}.

(** C7, as the code has it. The address scanner never panics and, whenever
    it returns, its history is: broadcast off; then for each short address
    a = 0, 1, ..., 63 in this order one query (command 0xA1) to address
    byte 2a+1 and one read, followed by on and off to that address when
    the buffer read deviates from idle; then broadcast on. It returns a
    nil error and the slice made of the address bytes 2a+1 of the short
    addresses a whose buffer deviated, in ascending order, followed by one
    extra 0 byte. On a port whose transfers never fail it does return. *)
Theorem Scan_addresses_report (w : world (P := P)) :
  (Scan_addresses w <> OutOfFuel /\ Scan_addresses w <> Panicked) /\
  (forall w' resp err, Scan_addresses w = Returned w' (resp, err) ->
     exists rsps,
       length rsps = 64%nat /\
       history w' = history w ++ [Sent BROADCAST_C OFF_C] ++
                    scan_history 0 rsps ++ [Sent BROADCAST_C ON_C] /\
       resp = map (fun a => 2 * a + 1) (occupied 0 rsps) ++ [0] /\
       err = None) /\
  (forall I : P -> Prop, reliable I -> I (port w) ->
     exists w' resp, Scan_addresses w = Returned w' (resp, None)).
Proof.
  split; [| split].
  - pose proof (run_Scan_addresses _ _ any_Write any_Read w I) as Hrun.
    apply run_any in Hrun as (Hfuel & Hpanic & _). split; assumption.
  - intros w' resp err Hret.
    pose proof (run_Scan_addresses _ _ any_Write any_Read w I) as Hrun.
    apply run_any in Hrun as (_ & _ & Hpost).
    destruct (Hpost w' _ Hret) as (rsps & Hlen & Hh & Hr).
    injection Hr as -> ->. exists rsps. auto.
  - intros Iv Hrel Hport.
    pose proof (run_Scan_addresses Iv _ (reliable_Write Iv Hrel)
                  (reliable_Read Iv Hrel) w Hport) as Hrun.
    apply run_reliable in Hrun as (w' & r & Hret & rsps & _ & _ & ->).
    exists w'. eexists. exact Hret.
Qed.

End Scanner.

(** * The commissioner within its budget *)

Section Commissioner.

Context {P : Type} `{Port P}.

(** X8. Whatever the port does, a commissioning run needs at most 65 passes of
    the discovery loop and 24 passes of each inner search, and never
    panics; when it returns, its error is nil and at most 65 short
    addresses were assigned; on a port whose transfers never fail it does
    return. The budgets (65, 24) used for the runs on concrete buses below
    therefore never cut a run short. *)
Lemma Initialize_dali_within_budget (w : world (P := P)) :
  (Initialize_dali_session 65 24 w <> OutOfFuel /\
   Initialize_dali_session 65 24 w <> Panicked) /\
  (forall w' r, Initialize_dali_session 65 24 w = Returned w' r ->
     fst r = None /\ 0 <= short_add (snd r) <= 65) /\
  (forall I : P -> Prop, reliable I -> I (port w) ->
     exists w' s, Initialize_dali_session 65 24 w = Returned w' (None, s)).
Proof.
  split; [| split].
  - pose proof (run_Initialize_dali_session _ _ any_Write any_Read w I)
      as Hrun.
    apply run_any in Hrun as (Hfuel & Hpanic & _). split; assumption.
  - intros w' r Hret.
    pose proof (run_Initialize_dali_session _ _ any_Write any_Read w I)
      as Hrun.
    apply run_any in Hrun as (_ & _ & Hpost). exact (Hpost w' r Hret).
  - intros Iv Hrel Hport.
    pose proof (run_Initialize_dali_session Iv _ (reliable_Write Iv Hrel)
                  (reliable_Read Iv Hrel) w Hport) as Hrun.
    apply run_reliable in Hrun as (w' & [err s] & Hret & Herr & _).
    cbn [fst] in Herr. subst err. exists w', s. exact Hret.
Qed.

End Commissioner.

(** * Transport faults *)

Section Faults.

Context {P : Type} `{Port P}.

Lemma bind_Returned {A B} (m : M A) (k : A -> M B)
  (w w' : world (P := P)) (b : B) :
  bind m k w = Returned w' b ->
  exists w1 a, m w = Returned w1 a /\ k a w1 = Returned w' b.
Proof.
  unfold bind. destruct (m w) as [w1 a | w1 e | |]; try discriminate.
  intros Hk. exists w1, a. auto.
Qed.

Lemma Issue_dali_request_outcome (a c : Z) (w : world (P := P)) :
  Issue_dali_request a c w =
  let '(p', (_, err)) := port_Write (port w) [0x40; 0; 0; 0; 0] in
  let w' := mkWorld p' (Sent a c :: log w) in
  match err with
  | Some e => Exited w' e
  | None => Returned w' None
  end.
Proof.
  unfold Issue_dali_request, bind, record, Write.
  rewrite create_dali_frame_const. cbn [port log].
  destruct (port_Write (port w) [0x40; 0; 0; 0; 0]) as [p' [n [e |]]];
    reflexivity.
Qed.

Lemma Wait_dali_response_outcome (w : world (P := P)) :
  Wait_dali_response w =
  let '(p', (data, err)) := port_Read (port w) 3 in
  let rsp := store_bytes [0; 0; 0] data in
  match err with
  | Some e => Exited (mkWorld p' (log w)) e
  | None => Returned (mkWorld p' (Received rsp :: log w)) (rsp, None)
  end.
Proof.
  unfold Wait_dali_response, bind, record, Read. cbn [length].
  destruct (port_Read (port w) 3) as [p' [data [e |]]]; reflexivity.
Qed.

Lemma Issue_dali_request_nil (a c : Z) (w w' : world (P := P))
  (err : option error) :
  Issue_dali_request a c w = Returned w' err -> err = None.
Proof.
  rewrite Issue_dali_request_outcome.
  destruct (port_Write (port w) [0x40; 0; 0; 0; 0]) as [p' [n [e |]]];
    cbn; [discriminate |].
  intros Heq. injection Heq as _ <-. reflexivity.
Qed.

Lemma Wait_dali_response_nil (w w' : world (P := P)) (rsp : list Z)
  (err : option error) :
  Wait_dali_response w = Returned w' (rsp, err) -> err = None.
Proof.
  rewrite Wait_dali_response_outcome.
  destruct (port_Read (port w) 3) as [p' [data [e |]]];
    cbn -[store_bytes]; [discriminate |].
  intros Heq. injection Heq as _ _ <-. reflexivity.
Qed.

Ltac bind_inv Hrun w1 a1 Hm :=
  apply bind_Returned in Hrun as (w1 & a1 & Hm & Hrun).

Ltac skip_bind Hrun :=
  let w1 := fresh "w" in
  let a1 := fresh "a" in
  let Hm := fresh "Hm" in
  apply bind_Returned in Hrun as (w1 & a1 & Hm & Hrun); clear Hm.

Lemma search_iteration_inr (s : session) (w w' : world (P := P))
  (r : error + session) :
  search_iteration s w = Returned w' r -> exists s', r = inr s'.
Proof.
  intros Hrun. unfold search_iteration in Hrun.
  destruct (split_address (longadd s)) as [[hb mb] lb].
  do 4 skip_bind Hrun. bind_inv Hrun w5 rd Hread.
  destruct rd as [rsp err]. apply Wait_dali_response_nil in Hread as ->.
  cbn [fst snd] in Hrun.
  destruct (compare_heard rsp) as [heard |]; [| discriminate].
  injection Hrun as _ <-. eexists. reflexivity.
Qed.

Lemma inner_search_inr (probes : nat) :
  forall (s : session) (w w' : world (P := P)) (r : error + session),
  inner_search probes s w = Returned w' r -> exists s', r = inr s'.
Proof.
  induction probes as [| probes IH]; intros s w w' r Hrun;
    cbn [inner_search] in Hrun;
    destruct (wrap64 (high_longadd s - low_longadd s) >? 1).
  - discriminate.
  - injection Hrun as _ <-. eexists. reflexivity.
  - bind_inv Hrun w1 r1 Hstep.
    destruct (search_iteration_inr _ _ _ _ Hstep) as (s1 & ->).
    exact (IH _ _ _ _ Hrun).
  - injection Hrun as _ <-. eexists. reflexivity.
Qed.

Lemma discovery_inr (passes probes : nat) :
  forall (s : session) (w w' : world (P := P)) (r : error + session),
  discovery passes probes s w = Returned w' r -> exists s', r = inr s'.
Proof.
  induction passes as [| passes IH]; intros s w w' r Hrun;
    cbn [discovery] in Hrun;
    destruct ((longadd s <=? 0xFFFFFF - 2) && (short_add s <=? 64)).
  - discriminate.
  - injection Hrun as _ <-. eexists. reflexivity.
  - bind_inv Hrun w1 r1 Hsearch.
    destruct (inner_search_inr _ _ _ _ _ Hsearch) as (s1 & ->).
    skip_bind Hrun. exact (IH _ _ _ _ Hrun).
  - injection Hrun as _ <-. eexists. reflexivity.
Qed.

Lemma Initialize_dali_nil (passes probes : nat) (w w' : world (P := P))
  (err : option error) :
  Initialize_dali passes probes w = Returned w' err -> err = None.
Proof.
  intros Hrun. unfold Initialize_dali in Hrun.
  bind_inv Hrun w1 r1 Hsession. injection Hrun as _ <-.
  unfold Initialize_dali_session in Hsession.
  do 7 skip_bind Hsession. bind_inv Hsession w9 r Hdisc.
  destruct (discovery_inr _ _ _ _ _ _ Hdisc) as (s & ->).
  skip_bind Hsession. bind_inv Hsession w11 e Hlast.
  apply Issue_dali_request_nil in Hlast as ->.
  injection Hsession as _ <-. reflexivity.
Qed.

Lemma Scan_addresses_nil (w w' : world (P := P)) (resp : list Z)
  (err : option error) :
  Scan_addresses w = Returned w' (resp, err) -> err = None.
Proof.
  intros Hrun. unfold Scan_addresses in Hrun.
  do 2 skip_bind Hrun. bind_inv Hrun w3 e Hlast.
  apply Issue_dali_request_nil in Hlast as ->.
  injection Hrun as _ _ <-. reflexivity.
Qed.

(** C10. [Wait_dali_response] returns a nil error on every path on which
    it returns: a failing read ends the process through [log.Fatal] and is
    never returned. Hence the [rsp_err != nil] branch of the commissioner
    is never taken: neither a pass through the inner loop's body, nor the
    inner loop, nor the discovery loop ever yields the early return. *)
Theorem Wait_dali_response_error_always_nil (w : world (P := P)) :
  (forall w' rsp err,
     Wait_dali_response w = Returned w' (rsp, err) -> err = None) /\
  (forall p' data e,
     port_Read (port w) 3 = (p', (data, Some e)) ->
     Wait_dali_response w = Exited (mkWorld p' (log w)) e) /\
  (forall s w' r,
     search_iteration s w = Returned w' r -> exists s', r = inr s') /\
  (forall probes s w' r,
     inner_search probes s w = Returned w' r -> exists s', r = inr s') /\
  (forall passes probes s w' r,
     discovery passes probes s w = Returned w' r -> exists s', r = inr s').
Proof.
  split; [| split; [| split; [| split]]].
  - intros w' rsp err. apply Wait_dali_response_nil.
  - intros p' data e Hread. rewrite Wait_dali_response_outcome, Hread.
    reflexivity.
  - intros s w' r. apply search_iteration_inr.
  - intros probes s w' r. apply inner_search_inr.
  - intros passes probes s w' r. apply discovery_inr.
Qed.

(** X16. What one transfer does, for every port. When the write of a
    frame fails, [Issue_dali_request] ends the process with that error, and
    when it succeeds it returns nil; when the read of a backward frame
    fails, with a timeout or any other error, [Wait_dali_response] ends the
    process with that error, and when it succeeds it returns the buffer
    with a nil error. Whenever the scanner or the commissioner returns,
    its error is nil. *)
Theorem transport_fault_ends_process (w : world (P := P)) (a c : Z) :
  (forall p' n e,
     port_Write (port w) [0x40; 0; 0; 0; 0] = (p', (n, Some e)) ->
     Issue_dali_request a c w
       = Exited (mkWorld p' (Sent a c :: log w)) e) /\
  (forall p' n,
     port_Write (port w) [0x40; 0; 0; 0; 0] = (p', (n, None)) ->
     Issue_dali_request a c w
       = Returned (mkWorld p' (Sent a c :: log w)) None) /\
  (forall p' data e,
     port_Read (port w) 3 = (p', (data, Some e)) ->
     Wait_dali_response w = Exited (mkWorld p' (log w)) e) /\
  (forall p' data,
     port_Read (port w) 3 = (p', (data, None)) ->
     Wait_dali_response w
       = Returned (mkWorld p' (Received (store_bytes [0; 0; 0] data)
                                 :: log w))
                  (store_bytes [0; 0; 0] data, None)) /\
  (forall w' resp err,
     Scan_addresses w = Returned w' (resp, err) -> err = None) /\
  (forall passes probes w' err,
     Initialize_dali passes probes w = Returned w' err -> err = None).
Proof.
  split; [| split; [| split; [| split; [| split]]]].
  - intros p' n e Hwrite. rewrite Issue_dali_request_outcome, Hwrite.
    reflexivity.
  - intros p' n Hwrite. rewrite Issue_dali_request_outcome, Hwrite.
    reflexivity.
  - intros p' data e Hread. rewrite Wait_dali_response_outcome, Hread.
    reflexivity.
  - intros p' data Hread. rewrite Wait_dali_response_outcome, Hread.
    reflexivity.
  - intros w' resp err. apply Scan_addresses_nil.
  - intros passes probes w' err. apply Initialize_dali_nil.
Qed.

End Faults.

(** * Runs on concrete buses *)

Lemma script_ok_reliable : reliable script_ok.
Proof.
  intros p (Hw & Hq & Hr). split.
  - intros message. cbn. split; [| exact Hw]. repeat split; assumption.
  - intros n. cbn. unfold script_Read.
    destruct (replies p) as [| r rs] eqn:Hrs; cbn.
    + split; [| exact Hq]. repeat split; try assumption.
      rewrite Hrs. constructor.
    + inversion Hr as [| r' rs' Hhd Htl]; subst.
      split; [| exact Hhd]. repeat split; assumption.
Qed.

Lemma returned_value_Some {P A} (o : outcome (P := P) A) (a : A) :
  returned_value o = Some a -> exists w, o = Returned w a.
Proof.
  destruct o as [w a' | w e | |]; try discriminate.
  intros Heq. injection Heq as ->. exists w. reflexivity.
Defined.

(** C1 (the code departs from it). Binary search convergence. On a bus
    with a single device at long address T = 5 that answers a compare iff
    its long address is at most the candidate, every one of the 24 compares
    of the inner search is answered; the loop moves low up on each
    response, so low climbs to 0xFFFFFE, high stays at the ceiling
    0xFFFFFF, and the search ends with low + 1 = 0xFFFFFF, not 5. *)
Lemma inner_search_misses_device_upto_5 :
  1 <= 5 <= 0xFFFFFF /\
  answered_by (fun candidate => 5 <=? candidate) (0, 0, 0)
    (final_history (inner_search 24 session0 bus_device_upto_5)) = true /\
  returned_value (inner_search 24 session0 bus_device_upto_5)
    = Some (inr (mkSession 0xFFFFFE 0xFFFFFF 0xFFFFFE 0)) /\
  0xFFFFFE + 1 <> 5.
Proof.
  split; [lia |]. split; [vm_compute; reflexivity |].
  split; [vm_compute; reflexivity | lia].
Qed.

Lemma inner_search_isolates_target_witness :
  1 <= 5 <= 0xFFFFFF /\
  exists w' s',
    inner_search 24 session0 bus_device_above_5 = Returned w' (inr s') /\
    low_longadd s' + 1 = 5 /\ high_longadd s' = 5.
Proof.
  split; [lia |].
  destruct (inner_search_isolates_target 5 bus_device_above_5 ltac:(lia))
    as (_ & _ & Hret & _).
  assert (Hval : returned_value
                   (inner_search 24 session0 bus_device_above_5)
                 = Some (inr (mkSession 4 5 4 0)))
    by (vm_compute; reflexivity).
  apply returned_value_Some in Hval as (w' & Hrun).
  destruct (Hret w' _ Hrun) as (s' & evs & Hr & Hh & _ & _ & Hiso).
  injection Hr as <-.
  exists w', (mkSession 4 5 4 0). split; [exact Hrun |].
  apply Hiso.
  assert (Hfh : final_history (inner_search 24 session0 bus_device_above_5)
                = history w') by (rewrite Hrun; reflexivity).
  change (history bus_device_above_5) with (@nil event) in Hh.
  cbn [app] in Hh.
  rewrite <- Hh, <- Hfh. vm_compute. reflexivity.
Defined.

Lemma search_window_invariant_witness :
  window_ok session0 /\
  exists w' s',
    inner_search 24 session0 idle_bus = Returned w' (inr s') /\
    window_ok s' /\ high_longadd s' - low_longadd s' = 1.
Proof.
  assert (Hok : window_ok session0)
    by (unfold window_ok, session0; cbn; repeat split; lia).
  split; [exact Hok |].
  destruct (search_window_invariant session0 idle_bus Hok)
    as (_ & _ & _ & _ & Hreturns & _).
  apply (Hreturns script_ok script_ok_reliable).
  cbn. repeat split; constructor.
Defined.

(** On a bus where the short addresses 3 and 7 answer, the scanner
    returns the bytes 7, 15, 0: not the set {3, 7}. *)
Lemma Scan_addresses_3_7_returns_7_15_0 :
  occupied 0 (buffers_read (final_history (Scan_addresses bus_3_7)))
    = [3; 7] /\
  returned_value (Scan_addresses bus_3_7) = Some ([7; 15; 0], None) /\
  ~ (forall a, In a [7; 15; 0] <-> a = 3 \/ a = 7).
Proof.
  split; [vm_compute; reflexivity |]. split; [vm_compute; reflexivity |].
  intros Hset. assert (H3 : In 3 [7; 15; 0]) by (apply Hset; auto).
  cbn in H3. lia.
Qed.

Lemma Scan_addresses_report_witness :
  exists w' rsps,
    Scan_addresses bus_3_7 = Returned w' ([7; 15; 0], None) /\
    length rsps = 64%nat /\
    [7; 15; 0] = map (fun a => 2 * a + 1) (occupied 0 rsps) ++ [0].
Proof.
  destruct (Scan_addresses_report bus_3_7) as (_ & Hret & _).
  assert (Hval : returned_value (Scan_addresses bus_3_7)
                 = Some ([7; 15; 0], None))
    by (vm_compute; reflexivity).
  apply returned_value_Some in Hval as (w' & Hrun).
  destruct (Hret w' _ _ Hrun) as (rsps & Hlen & _ & Hresp & _).
  exists w', rsps. split; [exact Hrun |]. split; assumption.
Defined.

(** C8 (the code departs from it). A transport fault is not returned to
    the caller, and a read timeout is not taken for NoResponse: on a port
    whose write fails [Issue_dali_request] ends the process with the
    error, and on a port whose read times out [Wait_dali_response], the
    address scanner and the commissioner end the process with the timeout;
    none of them returns. *)
Lemma transport_fault_is_fatal :
  exit_error (Issue_dali_request BROADCAST_C OFF_C broken_port)
    = Some ErrIO /\
  returned_value (Issue_dali_request BROADCAST_C OFF_C broken_port) = None /\
  exit_error (Wait_dali_response dead_bus) = Some ErrTimeout /\
  returned_value (Wait_dali_response dead_bus) = None /\
  exit_error (Scan_addresses dead_bus) = Some ErrTimeout /\
  returned_value (Scan_addresses dead_bus) = None /\
  exit_error (Initialize_dali 65 24 dead_bus) = Some ErrTimeout /\
  returned_value (Initialize_dali 65 24 dead_bus) = None.
Proof. repeat split; vm_compute; reflexivity. Qed.

Lemma transport_fault_ends_process_witness :
  port_Write (port broken_port) [0x40; 0; 0; 0; 0]
    = (mkScript [] idle (Some ErrIO) [[0x40; 0; 0; 0; 0]],
       (0, Some ErrIO)) /\
  Issue_dali_request BROADCAST_C OFF_C broken_port
    = Exited (mkWorld (mkScript [] idle (Some ErrIO) [[0x40; 0; 0; 0; 0]])
                      [Sent BROADCAST_C OFF_C]) ErrIO.
Proof.
  split; [reflexivity |].
  destruct (transport_fault_ends_process broken_port BROADCAST_C OFF_C)
    as (Hfault & _).
  apply (Hfault _ 0 ErrIO). reflexivity.
Defined.

Lemma Wait_dali_response_error_always_nil_witness :
  port_Read (port dead_bus) 3
    = (mkScript [] ([], Some ErrTimeout) None [], ([], Some ErrTimeout)) /\
  Wait_dali_response dead_bus
    = Exited (mkWorld (mkScript [] ([], Some ErrTimeout) None []) [])
             ErrTimeout.
Proof.
  split; [reflexivity |].
  destruct (Wait_dali_response_error_always_nil dead_bus)
    as (_ & Hfault & _).
  apply (Hfault _ [] ErrTimeout). reflexivity.
Defined.

Lemma pair_eq {A B} (a c : A) (b d : B) :
  (a, b) = (c, d) -> a = c /\ b = d.
Proof. intros Heq. injection Heq as -> ->. auto. Qed.

(** The run on the idle bus, evaluated once. *)
Lemma idle_run_summary :
  (fun o => (returned_value o,
             programmed (final_history o),
             forallb (fun rsp => negb (deviates rsp))
                     (buffers_read (final_history o)),
             last (final_history o) (Sent 0 0))) idle_run
  = (Some (None, mkSession 0 0xFFFFFF 0x7FFFFF 65),
     map address_token (map Z.of_nat (seq 0 65)),
     true,
     Sent BROADCAST_C ON_C).
Proof. vm_compute. reflexivity. Qed.

(** C3 (the code departs from it). When every buffer read is idle, the
    first search does not stop at the ceiling: each silent compare moves
    high down, the search ends at low = 0, high = 1, and a short address
    is programmed. The whole run then programs 65 short addresses before
    it issues broadcast on and returns a nil error. *)
Theorem zero_devices_still_addressed :
  returned_value (inner_search 24 session0 idle_bus)
    = Some (inr (mkSession 0 1 0 0)) /\
  forallb (fun rsp => negb (deviates rsp))
          (buffers_read (final_history idle_run)) = true /\
  returned_value idle_run
    = Some (None, mkSession 0 0xFFFFFF 0x7FFFFF 65) /\
  length (programmed (final_history idle_run)) = 65%nat /\
  last (final_history idle_run) (Sent 0 0) = Sent BROADCAST_C ON_C.
Proof.
  destruct (pair_eq _ _ _ _ idle_run_summary) as [Hsum Hlast].
  destruct (pair_eq _ _ _ _ Hsum) as [Hsum' Hidle].
  destruct (pair_eq _ _ _ _ Hsum') as [Hret Hprog].
  split; [vm_compute; reflexivity |]. split; [exact Hidle |].
  split; [exact Hret |]. split; [rewrite Hprog; reflexivity | exact Hlast].
Qed.

(** C4 (the code departs from it). The address token programmed at each
    assignment is 1 + (short_add << 1) with short_add counting from 0, but
    the loop guard [short_add <= 64] lets a 65th assignment through: on
    the idle bus the tokens programmed are 1, 3, ..., 127 and then 129,
    and the counter ends at 65. *)
Theorem sixty_five_short_addresses :
  programmed (final_history idle_run)
    = map address_token (map Z.of_nat (seq 0 65)) /\
  length (programmed (final_history idle_run)) = 65%nat /\
  nth 64 (programmed (final_history idle_run)) 0 = 129 /\
  option_map (fun r => short_add (snd r)) (returned_value idle_run)
    = Some 65.
Proof.
  destruct (pair_eq _ _ _ _ idle_run_summary) as [Hsum _].
  destruct (pair_eq _ _ _ _ Hsum) as [Hsum' _].
  destruct (pair_eq _ _ _ _ Hsum') as [Hret Hprog].
  rewrite Hprog, Hret. repeat split.
Qed.

(** * Further properties *)

(** * Further properties of the frame encoder's parts *)

Lemma land_pow2 (n k : Z) : 0 <= k ->
  Z.land n (2 ^ k) = if Z.testbit n k then 2 ^ k else 0.
Proof.
  intros Hk. apply Z.bits_inj'. intros m Hm.
  rewrite Z.land_spec, Z.pow2_bits_eqb by exact Hk.
  destruct (Z.eqb_spec k m) as [-> | Hne].
  - destruct (Z.testbit n m); cbn.
    + rewrite Z.pow2_bits_eqb, Z.eqb_refl by exact Hm. reflexivity.
    + rewrite Z.bits_0. reflexivity.
  - rewrite andb_false_r. destruct (Z.testbit n k).
    + rewrite Z.pow2_bits_eqb by exact Hk.
      symmetry. apply Z.eqb_neq. exact Hne.
    + rewrite Z.bits_0. reflexivity.
Qed.

Lemma shl1_uint8_small (pos : Z) :
  0 <= pos <= 7 -> shl1_uint8 pos = Some (2 ^ pos).
Proof.
  intros Hp. unfold shl1_uint8.
  destruct (Z.ltb_spec pos 0) as [Hneg | _]; [lia |].
  rewrite Z.shiftl_1_l. unfold uint8. f_equal. apply Z.mod_small.
  split; [apply Z.pow_nonneg; lia |].
  change 256 with (2 ^ 8). apply Z.pow_lt_mono_r; lia.
Qed.

Lemma shl1_uint8_large (pos : Z) : 8 <= pos -> shl1_uint8 pos = Some 0.
Proof.
  intros Hp. unfold shl1_uint8.
  destruct (Z.ltb_spec pos 0) as [Hneg | _]; [lia |].
  rewrite Z.shiftl_1_l. unfold uint8. f_equal.
  replace pos with ((pos - 8) + 8) by lia.
  rewrite Z.pow_add_r by lia. change (2 ^ 8) with 256.
  apply Z.mod_mul. lia.
Qed.

Lemma is_bit_set_value (n pos : Z) :
  is_bit_set n pos =
  if pos <? 0 then None
  else Some (if pos <=? 7 then Z.testbit n pos else false).
Proof.
  unfold is_bit_set.
  destruct (Z.ltb_spec pos 0) as [Hneg | Hpos].
  - unfold shl1_uint8. destruct (Z.ltb_spec pos 0); [reflexivity | lia].
  - destruct (Z.leb_spec pos 7) as [Hle | Hgt].
    + rewrite shl1_uint8_small by lia. cbn [bind_opt].
      rewrite land_pow2 by lia. f_equal.
      destruct (Z.testbit n pos); [| reflexivity].
      apply Z.gtb_lt. apply Z.pow_pos_nonneg; lia.
    + rewrite shl1_uint8_large by lia. cbn [bind_opt].
      rewrite Z.land_0_r. reflexivity.
Qed.

(** X1. [is_bit_set n pos] panics for a negative position, reads bit
    [pos] of [n] for positions 0..7, and is false for positions of 8 and
    more (the mask [1 << pos] is 0 at type uint8). *)
Theorem is_bit_set_reads_bit (n pos : Z) :
  is_bit_set n pos =
  if pos <? 0 then None
  else Some (if pos <=? 7 then Z.testbit n pos else false).
Proof. apply is_bit_set_value. Qed.

(** X3. [split_address] cuts the low 24 bits of its argument into three
    bytes: each result is in [0, 255] and
    high * 65536 + middle * 256 + low = input mod 2^24, for every input. *)
Theorem split_address_recomposes (input : Z) :
  let '(highbyte, middlebyte, lowbyte) := split_address input in
  0 <= highbyte <= 255 /\ 0 <= middlebyte <= 255 /\ 0 <= lowbyte <= 255 /\
  highbyte * 65536 + middlebyte * 256 + lowbyte = input mod 16777216.
Proof.
  unfold split_address, uint8.
  rewrite !Z.shiftr_div_pow2 by lia.
  change (2 ^ 16) with 65536. change (2 ^ 8) with 256.
  Z.to_euclidean_division_equations. lia.
Qed.

(** X4. For a short address x in 0..127 the address token
    [1 + (x << 1)] is the odd byte 2x+1, and shifting it right by one gives
    x back, so distinct short addresses have distinct tokens; beyond that
    the uint8 arithmetic wraps: x + 128 has the token of x. *)
Theorem address_token_round_trip (x : Z) (Hx : 0 <= x <= 127) :
  address_token x = 2 * x + 1 /\
  Z.odd (address_token x) = true /\
  Z.shiftr (address_token x) 1 = x /\
  (forall y, 0 <= y <= 127 -> address_token y = address_token x -> y = x) /\
  address_token (x + 128) = address_token x.
Proof.
  rewrite address_token_small by exact Hx.
  split; [reflexivity |]. split.
  - rewrite Z.add_comm, Z.odd_add_mul_2. reflexivity.
  - split; [| split].
    + rewrite Z.shiftr_div_pow2 by lia. change (2 ^ 1) with 2.
      Z.to_euclidean_division_equations. lia.
    + intros y Hy. rewrite address_token_small by exact Hy. lia.
    + unfold address_token, uint8. rewrite !Z.shiftl_mul_pow2 by lia.
      change (2 ^ 1) with 2.
      Z.to_euclidean_division_equations. lia.
Qed.

Lemma address_token_round_trip_witness :
  0 <= 63 <= 127 /\ address_token 63 = 127 /\ Z.shiftr (address_token 63) 1 = 63.
Proof.
  split; [lia |].
  destruct (address_token_round_trip 63 ltac:(lia)) as (Htok & _ & Hback & _).
  split; [exact Htok | exact Hback].
Defined.

Lemma slice_get_in_range (l : list Z) (i b : Z) :
  slice_get l i = Some b -> 0 <= i < Z.of_nat (length l).
Proof.
  unfold slice_get. destruct (Z.ltb_spec i 0) as [Hneg | Hpos];
    [discriminate |].
  intros Hnth. assert (Hlt : (Z.to_nat i < length l)%nat)
    by (apply nth_error_Some; congruence).
  lia.
Qed.

Lemma slice_set_in_range (l : list Z) (i v : Z) :
  0 <= i < Z.of_nat (length l) ->
  slice_set l i v =
  Some (firstn (Z.to_nat i) l ++ v :: skipn (S (Z.to_nat i)) l).
Proof.
  intros Hi. unfold slice_set.
  destruct (Z.leb_spec 0 i); [| lia].
  destruct (Z.ltb_spec i (Z.of_nat (length l))); [| lia]. reflexivity.
Qed.

(** Writing a byte and reading it back; a second write at the same index
    replaces the first. *)
Lemma slice_set_get (l l' : list Z) (i v : Z) :
  slice_set l i v = Some l' ->
  slice_get l' i = Some v /\
  forall v', slice_set l' i v' = slice_set l i v'.
Proof.
  intros Heq.
  assert (Hi : 0 <= i < Z.of_nat (length l)).
  { unfold slice_set in Heq.
    destruct (Z.leb_spec 0 i); [| discriminate].
    destruct (Z.ltb_spec i (Z.of_nat (length l))); [lia | discriminate]. }
  rewrite slice_set_in_range in Heq by exact Hi.
  remember (Z.to_nat i) as n eqn:Hndef.
  assert (Hl' : l' = firstn n l ++ v :: skipn (S n) l) by congruence.
  clear Heq.
  assert (Hn : (n < length l)%nat) by lia.
  assert (Hfl : length (firstn n l) = n) by (rewrite length_firstn; lia).
  assert (Hlen : length l' = length l).
  { rewrite Hl', length_app, Hfl. cbn [length]. rewrite length_skipn. lia. }
  split.
  - unfold slice_get. destruct (Z.ltb_spec i 0); [lia |].
    rewrite <- Hndef, Hl'.
    rewrite nth_error_app2 by (rewrite Hfl; apply Nat.le_refl).
    rewrite Hfl, Nat.sub_diag. reflexivity.
  - intros v'.
    rewrite (slice_set_in_range l i v') by lia.
    rewrite (slice_set_in_range l' i v') by lia.
    rewrite <- Hndef. f_equal.
    assert (Hfirst : firstn n l' = firstn n l).
    { rewrite Hl', firstn_app, Hfl, Nat.sub_diag, firstn_firstn, Nat.min_id.
      cbn [firstn]. apply app_nil_r. }
    assert (Hskip : skipn (S n) l' = skipn (S n) l).
    { rewrite Hl'.
      replace (S n) with (length (firstn n l ++ [v])) at 1
        by (rewrite length_app, Hfl; cbn [length]; lia).
      change (firstn n l ++ v :: skipn (S n) l)
        with (firstn n l ++ [v] ++ skipn (S n) l).
      rewrite app_assoc, skipn_app, skipn_all, Nat.sub_diag.
      reflexivity. }
    rewrite Hfirst, Hskip. reflexivity.
Qed.

(** X2. One pass through the body of the encoder's bit loop, with the
    cursor on bit [msg_cn] (1..7) of an existing byte and a valid bit index
    [i]: it does not panic, moves the cursor down by two, and rewrites only
    the two bits under the cursor of that byte, to the pair (0, 1) when bit
    [i] of the operand is set and to the pair (1, 0) when it is clear. *)
Theorem encode_bit_writes_pair (dali_convert i : Z) (st : frame_state)
  (b : Z)
  (Hi : 0 <= i <= 7) (Hcn : 1 <= msg_cn st <= 7)
  (Hb : slice_get (msg st) (byte_frame st) = Some b) :
  exists b' msg',
    encode_bit dali_convert i st
      = Some (mkFrame msg' (msg_cn st - 2) (byte_frame st)) /\
    slice_set (msg st) (byte_frame st) b' = Some msg' /\
    Z.testbit b' (msg_cn st) = negb (Z.testbit dali_convert i) /\
    Z.testbit b' (msg_cn st - 1) = Z.testbit dali_convert i /\
    forall k, 0 <= k -> k <> msg_cn st -> k <> msg_cn st - 1 ->
      Z.testbit b' k = Z.testbit b k.
Proof.
  pose proof (slice_get_in_range _ _ _ Hb) as Hrange.
  unfold encode_bit.
  destruct (Z.ltb_spec (msg_cn st) 0) as [Hneg | _]; [lia |].
  rewrite is_bit_set_value.
  destruct (Z.ltb_spec i 0) as [Hineg | _]; [lia |].
  destruct (Z.leb_spec i 7) as [_ | Higt]; [| lia].
  cbn [bind_opt].
  destruct (Z.testbit dali_convert i) eqn:Hbit.
  - (* bit set: clear the upper bit of the pair, set the lower one *)
    set (b1 := Z.ldiff b (2 ^ msg_cn st)).
    set (b2 := Z.lor b1 (2 ^ (msg_cn st - 1))).
    destruct (slice_set (msg st) (byte_frame st) b1) as [msg1 |] eqn:Hs1;
      [| rewrite slice_set_in_range in Hs1 by lia; discriminate].
    destruct (slice_set_get _ _ _ _ Hs1) as [Hg1 Hover].
    destruct (slice_set (msg st) (byte_frame st) b2) as [msg2 |] eqn:Hs2;
      [| rewrite slice_set_in_range in Hs2 by lia; discriminate].
    exists b2, msg2.
    split.
    + unfold unset_bit. rewrite Hb. cbn [bind_opt].
      rewrite shl1_uint8_small by lia. cbn [bind_opt]. fold b1.
      rewrite Hs1. cbn [bind_opt].
      unfold dec_cn, set_bit. cbn [msg msg_cn byte_frame].
      rewrite wrap64_small by lia. rewrite Hg1. cbn [bind_opt].
      rewrite shl1_uint8_small by lia. cbn [bind_opt]. fold b2.
      rewrite Hover, Hs2. cbn [bind_opt msg msg_cn byte_frame].
      rewrite wrap64_small by lia. do 2 f_equal. lia.
    + split; [exact Hs2 |]. clear Hs2 Hs1 Hg1 Hover. subst b2 b1.
      split; [| split].
      * rewrite Z.lor_spec, Z.ldiff_spec, !Z.pow2_bits_eqb by lia.
        rewrite Z.eqb_refl.
        destruct (Z.eqb_spec (msg_cn st - 1) (msg_cn st)); [lia |].
        rewrite andb_false_r. reflexivity.
      * rewrite Z.lor_spec, !Z.pow2_bits_eqb by lia.
        rewrite Z.eqb_refl. apply orb_true_r.
      * intros k Hk Hk1 Hk2.
        rewrite Z.lor_spec, Z.ldiff_spec, !Z.pow2_bits_eqb by lia.
        destruct (Z.eqb_spec (msg_cn st) k); [lia |].
        destruct (Z.eqb_spec (msg_cn st - 1) k); [lia |].
        cbn. rewrite andb_true_r, orb_false_r. reflexivity.
  - (* bit clear: set the upper bit of the pair, clear the lower one *)
    set (b1 := Z.lor b (2 ^ msg_cn st)).
    set (b2 := Z.ldiff b1 (2 ^ (msg_cn st - 1))).
    destruct (slice_set (msg st) (byte_frame st) b1) as [msg1 |] eqn:Hs1;
      [| rewrite slice_set_in_range in Hs1 by lia; discriminate].
    destruct (slice_set_get _ _ _ _ Hs1) as [Hg1 Hover].
    destruct (slice_set (msg st) (byte_frame st) b2) as [msg2 |] eqn:Hs2;
      [| rewrite slice_set_in_range in Hs2 by lia; discriminate].
    exists b2, msg2.
    split.
    + unfold set_bit. rewrite Hb. cbn [bind_opt].
      rewrite shl1_uint8_small by lia. cbn [bind_opt]. fold b1.
      rewrite Hs1. cbn [bind_opt].
      unfold dec_cn, unset_bit. cbn [msg msg_cn byte_frame].
      rewrite wrap64_small by lia. rewrite Hg1. cbn [bind_opt].
      rewrite shl1_uint8_small by lia. cbn [bind_opt]. fold b2.
      rewrite Hover, Hs2. cbn [bind_opt msg msg_cn byte_frame].
      rewrite wrap64_small by lia. do 2 f_equal. lia.
    + split; [exact Hs2 |]. clear Hs2 Hs1 Hg1 Hover. subst b2 b1.
      split; [| split].
      * rewrite Z.ldiff_spec, Z.lor_spec, !Z.pow2_bits_eqb by lia.
        rewrite Z.eqb_refl.
        destruct (Z.eqb_spec (msg_cn st - 1) (msg_cn st)); [lia |].
        rewrite orb_true_r. reflexivity.
      * rewrite Z.ldiff_spec, !Z.pow2_bits_eqb by lia.
        rewrite Z.eqb_refl. apply andb_false_r.
      * intros k Hk Hk1 Hk2.
        rewrite Z.ldiff_spec, Z.lor_spec, !Z.pow2_bits_eqb by lia.
        destruct (Z.eqb_spec (msg_cn st) k); [lia |].
        destruct (Z.eqb_spec (msg_cn st - 1) k); [lia |].
        cbn. rewrite orb_false_r, andb_true_r. reflexivity.
Qed.

Lemma encode_bit_writes_pair_witness :
  0 <= 7 <= 7 /\ 1 <= 5 <= 7 /\
  slice_get [0x40; 0; 0; 0; 0] 0 = Some 0x40 /\
  exists b' msg',
    encode_bit 0x80 7 (mkFrame [0x40; 0; 0; 0; 0] 5 0)
      = Some (mkFrame msg' 3 0) /\
    slice_set [0x40; 0; 0; 0; 0] 0 b' = Some msg' /\
    Z.testbit b' 5 = false /\ Z.testbit b' 4 = true.
Proof.
  split; [lia |]. split; [lia |]. split; [reflexivity |].
  destruct (encode_bit_writes_pair 0x80 7 (mkFrame [0x40; 0; 0; 0; 0] 5 0)
              0x40 ltac:(lia) ltac:(cbn; lia) eq_refl)
    as (b' & msg' & Hrun & Hset & Hhigh & Hlow & _).
  exists b', msg'. repeat split; assumption.
Defined.

(** * Further properties of the transfers *)

Section Transfers.

Context {P : Type} `{Port P}.

(** X5. A read that succeeds but delivers fewer than 3 bytes leaves the
    rest of the zero-initialised buffer in place: [Wait_dali_response]
    returns the bytes delivered followed by zeros, and both the scanner and
    the commissioner count that buffer as a response, whatever was
    delivered. *)
Theorem Wait_dali_response_short_read (w : world (P := P)) (p' : P)
  (data : list Z)
  (Hread : port_Read (port w) 3 = (p', (data, None)))
  (Hshort : (length data < 3)%nat) :
  let rsp := data ++ repeat 0 (3 - length data) in
  Wait_dali_response w
    = Returned (mkWorld p' (Received rsp :: log w)) (rsp, None) /\
  deviates rsp = true /\
  scan_heard rsp = Some true /\ compare_heard rsp = Some true.
Proof.
  cbn zeta. rewrite Wait_dali_response_outcome, Hread.
  assert (Hstore : store_bytes [0; 0; 0] data
                   = data ++ repeat 0 (3 - length data)).
  { destruct data as [| d0 [| d1 [| d2 data]]]; try reflexivity.
    cbn [length] in Hshort. lia. }
  cbn zeta. rewrite Hstore. split; [reflexivity |].
  assert (Hdev : deviates (data ++ repeat 0 (3 - length data)) = true).
  { unfold deviates. rewrite existsb_app. apply orb_true_iff. right.
    destruct data as [| d0 [| d1 [| d2 data]]]; try reflexivity.
    cbn [length] in Hshort. lia. }
  split; [exact Hdev |].
  assert (Hlen : length (data ++ repeat 0 (3 - length data)) = 3%nat)
    by (rewrite length_app, repeat_length; lia).
  rewrite scan_heard_len3, compare_heard_len3 by exact Hlen.
  rewrite Hdev. split; reflexivity.
Qed.

(** X12. [Close_serial_connection] closes the port once and never returns
    an error: when [Close] fails the process ends with that error, and when
    it succeeds the function returns nil. *)
Theorem Close_serial_connection_never_returns_error (w : world (P := P)) :
  (forall p' e, port_Close (port w) = (p', Some e) ->
     Close_serial_connection w = Exited (mkWorld p' (log w)) e) /\
  (forall p', port_Close (port w) = (p', None) ->
     Close_serial_connection w = Returned (mkWorld p' (log w)) None) /\
  (forall w' err, Close_serial_connection w = Returned w' err ->
     err = None /\ port w' = fst (port_Close (port w))).
Proof.
  unfold Close_serial_connection, bind, log_Fatal, ret.
  destruct (port_Close (port w)) as [p1 [e1 |]] eqn:Hclose; cbn.
  - split; [| split].
    + intros p' e Heq. injection Heq as <- <-. reflexivity.
    + intros p' Heq. discriminate.
    + intros w' err Heq. discriminate.
  - split; [| split].
    + intros p' e Heq. discriminate.
    + intros p' Heq. injection Heq as <-. reflexivity.
    + intros w' err Heq. injection Heq as <- <-. split; reflexivity.
Qed.

End Transfers.

(** * Further properties of the address scanner *)

Lemma occupied_range (rsps : list (list Z)) :
  forall a, Forall (fun x => a <= x < a + Z.of_nat (length rsps))
                   (occupied a rsps).
Proof.
  induction rsps as [| rsp rsps IH]; intros a; cbn [occupied length].
  - constructor.
  - apply Forall_app. split.
    + destruct (deviates rsp); constructor; [lia | constructor].
    + eapply Forall_impl; [| apply IH]. cbn beta. intros x Hx. lia.
Qed.

Lemma occupied_sorted (rsps : list (list Z)) :
  forall a, Sorted Z.lt (occupied a rsps).
Proof.
  induction rsps as [| rsp rsps IH]; intros a; cbn [occupied].
  - constructor.
  - destruct (deviates rsp); cbn [app]; [| apply IH].
    constructor; [apply IH |].
    pose proof (occupied_range rsps (a + 1)) as Hr.
    destruct (occupied (a + 1) rsps) as [| x xs]; constructor.
    inversion Hr; subst. lia.
Qed.

Lemma occupied_length (rsps : list (list Z)) :
  forall a, length (occupied a rsps) = length (filter deviates rsps).
Proof.
  induction rsps as [| rsp rsps IH]; intros a; cbn [occupied filter].
  - reflexivity.
  - rewrite length_app, IH. destruct (deviates rsp); reflexivity.
Qed.

Lemma buffers_read_app (evs evs' : list event) :
  buffers_read (evs ++ evs') = buffers_read evs ++ buffers_read evs'.
Proof. unfold buffers_read. apply flat_map_app. Qed.

Lemma buffers_read_scan_history (rsps : list (list Z)) :
  forall a, buffers_read (scan_history a rsps) = rsps.
Proof.
  induction rsps as [| rsp rsps IH]; intros a; cbn [scan_history].
  - reflexivity.
  - rewrite buffers_read_app, IH.
    unfold scan_events. destruct (deviates rsp); reflexivity.
Qed.

Lemma count_sent_app (evs evs' : list event) :
  count_sent (evs ++ evs') = (count_sent evs + count_sent evs')%nat.
Proof. unfold count_sent. rewrite filter_app, length_app. reflexivity. Qed.

Lemma count_reads_app (evs evs' : list event) :
  count_reads (evs ++ evs') = (count_reads evs + count_reads evs')%nat.
Proof. unfold count_reads. rewrite filter_app, length_app. reflexivity. Qed.

Lemma scan_history_counts (rsps : list (list Z)) :
  forall a,
  count_reads (scan_history a rsps) = length rsps /\
  count_sent (scan_history a rsps)
    = (length rsps + 2 * length (occupied a rsps))%nat.
Proof.
  induction rsps as [| rsp rsps IH]; intros a; cbn [scan_history occupied].
  - split; reflexivity.
  - destruct (IH (a + 1)) as [IHr IHs].
    rewrite count_reads_app, count_sent_app, IHr, IHs, length_app.
    unfold scan_events. cbn [length].
    destruct (deviates rsp); cbn; split; lia.
Qed.

Lemma events_since (h evs h' : list event) :
  h' = h ++ evs -> skipn (length h) h' = evs.
Proof.
  intros ->. rewrite skipn_app, skipn_all, Nat.sub_diag. reflexivity.
Qed.

Section ScannerMore.

Context {P : Type} `{Port P}.

Lemma Scan_addresses_returned (w w' : world (P := P)) (resp : list Z)
  (err : option error) :
  Scan_addresses w = Returned w' (resp, err) ->
  exists rsps,
    length rsps = 64%nat /\
    history w' = history w ++ [Sent BROADCAST_C OFF_C] ++
                 scan_history 0 rsps ++ [Sent BROADCAST_C ON_C] /\
    resp = map (fun a => 2 * a + 1) (occupied 0 rsps) ++ [0] /\
    err = None.
Proof.
  intros Hrun.
  pose proof (run_Scan_addresses _ _ any_Write any_Read w I) as Hspec.
  apply run_any in Hspec as (_ & _ & Hpost).
  destruct (Hpost w' _ Hrun) as (rsps & Hlen & Hh & Hr).
  injection Hr as -> ->. exists rsps. auto.
Qed.

(** X6. Whenever the address scanner returns, its result is the address
    bytes 2a+1 of a strictly increasing list of short addresses a in 0..63
    followed by one 0 byte: it is never empty and never longer than 65
    bytes, and the error is nil. *)
Theorem Scan_addresses_result_shape (w w' : world (P := P))
  (resp : list Z) (err : option error)
  (Hrun : Scan_addresses w = Returned w' (resp, err)) :
  exists xs,
    resp = map (fun a => 2 * a + 1) xs ++ [0] /\
    Sorted Z.lt xs /\
    Forall (fun a => 0 <= a <= 63) xs /\
    (1 <= length resp <= 65)%nat /\
    err = None.
Proof.
  destruct (Scan_addresses_returned w w' resp err Hrun)
    as (rsps & Hlen & _ & -> & ->).
  exists (occupied 0 rsps).
  split; [reflexivity |]. split; [apply occupied_sorted |].
  split.
  - eapply Forall_impl; [| apply occupied_range]. cbn beta.
    intros x Hx. rewrite Hlen in Hx. lia.
  - split; [| reflexivity].
    rewrite length_app, length_map, occupied_length. cbn [length].
    pose proof (filter_length_le deviates rsps). lia.
Qed.

(** X7. Whenever the address scanner returns it has read exactly 64
    buffers, and it has issued 66 requests plus two for every short address
    it reports (one query per address, the two broadcasts, and on/off for
    each hit). *)
Theorem Scan_addresses_traffic (w w' : world (P := P))
  (resp : list Z) (err : option error)
  (Hrun : Scan_addresses w = Returned w' (resp, err)) :
  let evs := skipn (length (history w)) (history w') in
  count_reads evs = 64%nat /\
  count_sent evs = (66 + 2 * (length resp - 1))%nat /\
  resp = map (fun a => 2 * a + 1) (occupied 0 (buffers_read evs)) ++ [0].
Proof.
  destruct (Scan_addresses_returned w w' resp err Hrun)
    as (rsps & Hlen & Hh & -> & _).
  cbn zeta. rewrite (events_since _ _ _ Hh).
  destruct (scan_history_counts rsps 0) as [Hreads Hsent].
  rewrite !count_reads_app, !count_sent_app, Hreads, Hsent, Hlen.
  rewrite length_app, length_map. cbn [length].
  split; [reflexivity |]. split; [cbn; lia |].
  rewrite !buffers_read_app, buffers_read_scan_history.
  change (buffers_read [Sent BROADCAST_C OFF_C]) with (@nil (list Z)).
  change (buffers_read [Sent BROADCAST_C ON_C]) with (@nil (list Z)).
  rewrite app_nil_r. reflexivity.
Qed.

End ScannerMore.

(** * Further properties of the commissioner *)

Lemma narrow_short_add (s : session) (heard : bool) :
  short_add (narrow s heard) = short_add s.
Proof. reflexivity. Qed.

(** How the bounds move over a search that ends with [low < high]: high
    never rises and stays put exactly when every buffer shows a response;
    low never falls and stays put when no buffer shows one. *)
Lemma replay_bounds (rsps : list (list Z)) :
  forall s,
  0 <= low_longadd s -> low_longadd s <= high_longadd s ->
  high_longadd s <= 0xFFFFFF ->
  longadd s = (low_longadd s + high_longadd s) / 2 ->
  low_longadd (replay s rsps) < high_longadd (replay s rsps) ->
  low_longadd s <= low_longadd (replay s rsps) /\
  high_longadd (replay s rsps) <= high_longadd s /\
  (high_longadd (replay s rsps) = high_longadd s <->
   forallb deviates rsps = true) /\
  (forallb (fun rsp => negb (deviates rsp)) rsps = true ->
   low_longadd (replay s rsps) = low_longadd s).
Proof.
  induction rsps as [| rsp rsps IH]; intros s Hl Hlh Hh Hmid Hfinal.
  - cbn. repeat split; try lia; reflexivity.
  - cbn [replay forallb] in *.
    assert (Hcand : low_longadd s <= longadd s <= high_longadd s)
      by (rewrite Hmid; Z.to_euclidean_division_equations; lia).
    assert (Htop : longadd s = high_longadd s ->
                   low_longadd s = high_longadd s)
      by (rewrite Hmid; Z.to_euclidean_division_equations; lia).
    remember (narrow s (deviates rsp)) as s1 eqn:Hs1.
    assert (Hlow1 : low_longadd s1
                    = if deviates rsp then longadd s else low_longadd s)
      by (rewrite Hs1; reflexivity).
    assert (Hhigh1 : high_longadd s1
                     = if deviates rsp then high_longadd s else longadd s)
      by (rewrite Hs1; reflexivity).
    assert (Hmid1 : longadd s1 = (low_longadd s1 + high_longadd s1) / 2).
    { rewrite Hs1. unfold narrow. cbn [low_longadd high_longadd longadd].
      apply midpoint_small; destruct (deviates rsp); lia. }
    clear Hs1.
    destruct (deviates rsp); cbn [andb negb].
    + destruct (IH s1) as (IHl & IHh & IHiff & IHidle); try lia;
        try exact Hmid1.
      split; [lia |]. split; [lia |]. split.
      * rewrite <- Hhigh1. exact IHiff.
      * discriminate.
    + destruct (IH s1) as (IHl & IHh & IHiff & IHidle); try lia;
        try exact Hmid1.
      split; [lia |]. split; [lia |]. split.
      * split; [intros Heq; exfalso; lia | discriminate].
      * intros Hall. rewrite <- Hlow1. apply IHidle. exact Hall.
Qed.

Lemma programmed_app (evs evs' : list event) :
  programmed (evs ++ evs') = programmed evs ++ programmed evs'.
Proof. unfold programmed. apply flat_map_app. Qed.

Lemma programmed_search_events (rsps : list (list Z)) :
  forall s, programmed (search_events s rsps) = [].
Proof.
  induction rsps as [| rsp rsps IH]; intros s; cbn [search_events];
    [reflexivity |].
  rewrite programmed_app, IH. unfold probe_events.
  destruct (split_address (longadd s)) as [[hb mb] lb]. reflexivity.
Qed.

Lemma buffers_read_search_events (rsps : list (list Z)) :
  forall s, buffers_read (search_events s rsps) = rsps.
Proof.
  induction rsps as [| rsp rsps IH]; intros s; cbn [search_events];
    [reflexivity |].
  rewrite buffers_read_app, IH. unfold probe_events.
  destruct (split_address (longadd s)) as [[hb mb] lb]. reflexivity.
Qed.

Lemma programmed_assign_events (s : session) :
  0 <= short_add s <= 64 ->
  programmed (assign_events s) = [2 * short_add s + 1] /\
  buffers_read (assign_events s) = [] /\
  count_reads (assign_events s) = 0%nat.
Proof.
  intros Hsa. unfold assign_events.
  destruct (split_address (wrap64 (longadd s + 1))) as [[hb mb] lb].
  rewrite address_token_small by lia.
  unfold programmed, ON_C, OFF_C. cbn [flat_map app].
  change (0xB1 =? 0xB7) with false. change (0xAB =? 0xB7) with false.
  change (0xB7 =? 0xB7) with true.
  destruct (Z.eqb_spec (2 * short_add s + 1) 0xB7) as [Heq | _]; [lia |].
  repeat split.
Qed.

Lemma tokens_nil (k : Z) : tokens k k = [].
Proof. unfold tokens. rewrite Z.sub_diag. reflexivity. Qed.

Lemma tokens_cons (k k' : Z) :
  0 <= k < k' -> tokens k k' = (2 * k + 1) :: tokens (k + 1) k'.
Proof.
  intros Hk. unfold tokens.
  replace (Z.to_nat (k' - k)) with (S (Z.to_nat (k' - (k + 1)))) by lia.
  replace (Z.to_nat (k + 1)) with (S (Z.to_nat k)) by lia.
  cbn [seq map]. rewrite Z2Nat.id by lia. reflexivity.
Qed.

Lemma forallb_heard_and_silent (rsps : list (list Z)) :
  forallb deviates rsps = true ->
  forallb (fun rsp => negb (deviates rsp)) rsps = true ->
  rsps = [].
Proof.
  destruct rsps as [| rsp rsps]; [reflexivity |]. cbn [forallb].
  destruct (deviates rsp); cbn; discriminate.
Qed.

Section CommissionerRules.

Context {P : Type} `{Port P}.
Variable Inv : P -> Prop.
Variable E : error -> Prop.

Hypothesis Inv_Write : forall p message p' n err,
  Inv p -> port_Write p message = (p', (n, err)) ->
  match err with None => Inv p' | Some e => E e end.

Hypothesis Inv_Read : forall p k p' data err,
  Inv p -> port_Read p k = (p', (data, err)) ->
  match err with None => Inv p' | Some e => E e end.

Lemma run_assign_events (s : session) (w : world (P := P))
  (Q : world (P := P) -> session -> Prop) :
  Inv (port w) ->
  (forall w', Inv (port w') ->
     history w' = history w ++ assign_events s ->
     Q w' (mkSession (low_longadd s) 0xFFFFFF
                     (midpoint (low_longadd s) 0xFFFFFF)
                     (uint8 (short_add s + 1)))) ->
  run Inv E (assign_short_address s) w Q.
Proof.
  intros HI HQ. unfold assign_short_address, assign_events in *.
  destruct (split_address (wrap64 (longadd s + 1))) as [[hb mb] lb].
  apply run_bind. apply (run_Issue Inv E Inv_Write); [exact HI |].
  intros w1 HI1 H1.
  apply run_bind. apply (run_Issue Inv E Inv_Write); [exact HI1 |].
  intros w2 HI2 H2.
  apply run_bind. apply (run_Issue Inv E Inv_Write); [exact HI2 |].
  intros w3 HI3 H3.
  apply run_bind. apply (run_Issue Inv E Inv_Write); [exact HI3 |].
  intros w4 HI4 H4.
  apply run_bind. apply (run_Issue Inv E Inv_Write); [exact HI4 |].
  intros w5 HI5 H5.
  apply run_bind. apply (run_Issue Inv E Inv_Write); [exact HI5 |].
  intros w6 HI6 H6.
  apply run_bind. apply (run_Issue Inv E Inv_Write); [exact HI6 |].
  intros w7 HI7 H7.
  apply run_ret; [exact HI7 |]. apply HQ; [exact HI7 |].
  rewrite H7, H6, H5, H4, H3, H2, H1, <- !app_assoc. reflexivity.
Qed.

(** The discovery loop, from a window reopened to the ceiling: the events
    it adds, the tokens it programs, and what it does when every buffer
    read shows a response and when none does. *)
Lemma run_discovery_events (passes : nat) :
  forall (s : session) (w : world (P := P)),
  Inv (port w) -> window_ok s -> high_longadd s = 0xFFFFFF ->
  0 <= short_add s <= 65 ->
  65 - short_add s <= Z.of_nat passes ->
  run Inv E (discovery passes 24 s) w (fun w' r =>
    exists s' evs,
      r = inr s' /\
      history w' = history w ++ evs /\
      short_add s <= short_add s' <= 65 /\
      programmed evs = tokens (short_add s) (short_add s') /\
      (forallb deviates (buffers_read evs) = true ->
       short_add s' = short_add s /\ (count_reads evs <= 24)%nat) /\
      (forallb (fun rsp => negb (deviates rsp)) (buffers_read evs) = true ->
       low_longadd s <= 0xFFFFFC -> short_add s' = 65)).
Proof.
  induction passes as [| passes IH]; intros s w HI Hok Hceil Hsa Hfuel;
    cbn [discovery];
    destruct ((longadd s <=? 0xFFFFFF - 2) && (short_add s <=? 64)) eqn:Hg.
  - apply andb_true_iff in Hg as [_ Hle]. apply Z.leb_le in Hle. lia.
  - apply run_ret; [exact HI |]. exists s, [].
    rewrite app_nil_r, tokens_nil. cbn.
    split; [reflexivity |]. split; [reflexivity |]. split; [lia |].
    split; [reflexivity |]. split; [intros _; split; lia |].
    intros _ Hlow. apply andb_false_iff in Hg as [Hg | Hg].
    + apply Z.leb_gt in Hg. destruct Hok as (Hl & Hlh & Hh & Hmid).
      rewrite Hmid, Hceil in Hg. revert Hg.
      Z.to_euclidean_division_equations. lia.
    + apply Z.leb_gt in Hg. lia.
  - apply andb_true_iff in Hg as [_ Hle]. apply Z.leb_le in Hle.
    apply run_bind. eapply run_conseq.
    + apply (run_inner_search Inv E Inv_Write Inv_Read 24 s w HI Hok).
      destruct Hok as (Hl & Hlh & Hh & _).
      change (2 ^ Z.of_nat 24) with 16777216. lia.
    + cbn beta. intros w1 r HI1 (rsps & -> & Hh1 & Hlen & Hok1 & Hone).
      pose proof (replay_short_add rsps s) as Hsa1.
      pose proof Hok as (Hl & Hlh & Hh & Hmid).
      pose proof Hok1 as (Hl1 & Hlh1 & Hhh1 & Hmid1).
      destruct (replay_bounds rsps s Hl ltac:(lia) Hh Hmid Hlh1)
        as (Hlow_up & Hhigh_down & Hiff & Hidle).
      remember (replay s rsps) as s1 eqn:Hs1def.
      destruct (Z.eqb_spec (high_longadd s1) 0xFFFFFF) as [Hcap | Hcap];
        cbn [negb].
      * (* the search ended at the ceiling: nothing is assigned *)
        apply run_bind, run_ret; [exact HI1 |].
        rewrite discovery_done
          by (apply andb_false_iff; left; apply Z.leb_gt;
              rewrite Hmid1; Z.to_euclidean_division_equations; lia).
        apply run_ret; [exact HI1 |].
        exists s1, (search_events s rsps).
        rewrite programmed_search_events, buffers_read_search_events,
          count_reads_search_events, Hsa1, tokens_nil.
        split; [reflexivity |]. split; [exact Hh1 |]. split; [lia |].
        split; [reflexivity |]. split; [intros _; split; [reflexivity | exact Hlen] |].
        intros Hsilent Hlow. exfalso.
        assert (Hheard : forallb deviates rsps = true)
          by (apply Hiff; congruence).
        pose proof (forallb_heard_and_silent rsps Hheard Hsilent) as Hnil.
        subst rsps. cbn [replay] in Hs1def. subst s1. lia.
      * (* the search ended below the ceiling: one assignment, then on *)
        destruct (programmed_assign_events s1 ltac:(lia))
          as (Hprog & Hbuf & Hcnt).
        apply run_bind, run_assign_events; [exact HI1 |].
        intros w2 HI2 Hh2. eapply run_conseq.
        -- apply IH; [exact HI2 | | reflexivity | |];
             cbn [low_longadd high_longadd longadd short_add];
             rewrite ?Hsa1, ?uint8_small by lia; try lia.
           unfold window_ok. cbn [low_longadd high_longadd longadd].
           rewrite midpoint_small by lia. repeat split; lia.
        -- cbn beta.
           intros w' r _ (s' & evs & -> & Hh' & Hs' & Hprog' & _ & Hidle').
           cbn [short_add low_longadd] in Hs', Hprog', Hidle'.
           rewrite Hsa1, uint8_small in Hs', Hprog' by lia.
           exists s', (search_events s rsps ++ assign_events s1 ++ evs).
           split; [reflexivity |].
           split; [rewrite Hh', Hh2, Hh1, <- !app_assoc; reflexivity |].
           split; [lia |].
           rewrite !programmed_app, !buffers_read_app,
             programmed_search_events, buffers_read_search_events,
             Hprog, Hbuf, Hprog', Hsa1.
           cbn [app]. rewrite !forallb_app.
           split; [symmetry; apply tokens_cons; lia |]. split.
           ++ intros Hall. apply andb_true_iff in Hall as [Hheard _].
              exfalso. apply Hcap. rewrite <- Hceil. apply Hiff. exact Hheard.
           ++ intros Hall Hlow. apply andb_true_iff in Hall as [Hsil Hrest].
              apply Hidle'; [exact Hrest |].
              rewrite (Hidle Hsil). exact Hlow.
  - apply run_ret; [exact HI |]. exists s, [].
    rewrite app_nil_r, tokens_nil. cbn.
    split; [reflexivity |]. split; [reflexivity |]. split; [lia |].
    split; [reflexivity |]. split; [intros _; split; lia |].
    intros _ Hlow. apply andb_false_iff in Hg as [Hg | Hg].
    + apply Z.leb_gt in Hg. destruct Hok as (Hl & Hlh & Hh & Hmid).
      rewrite Hmid, Hceil in Hg. revert Hg.
      Z.to_euclidean_division_equations. lia.
    + apply Z.leb_gt in Hg. lia.
Qed.

End CommissionerRules.

Section CommissionerRun.

Context {P : Type} `{Port P}.

Lemma run_Initialize_dali_events (Inv : P -> Prop) (E : error -> Prop)
  (Inv_Write : forall p message p' n err,
     Inv p -> port_Write p message = (p', (n, err)) ->
     match err with None => Inv p' | Some e => E e end)
  (Inv_Read : forall p k p' data err,
     Inv p -> port_Read p k = (p', (data, err)) ->
     match err with None => Inv p' | Some e => E e end)
  (w : world (P := P)) :
  Inv (port w) ->
  run Inv E (Initialize_dali_session 65 24) w (fun w' r =>
    exists body,
      history w' = history w ++ preamble ++ body ++ epilogue /\
      fst r = None /\
      0 <= short_add (snd r) <= 65 /\
      programmed body = tokens 0 (short_add (snd r)) /\
      (forallb deviates (buffers_read body) = true ->
       short_add (snd r) = 0 /\ (count_reads body <= 24)%nat) /\
      (forallb (fun rsp => negb (deviates rsp)) (buffers_read body) = true ->
       short_add (snd r) = 65)).
Proof.
  intros HI. unfold Initialize_dali_session.
  apply run_bind, (run_Issue Inv E Inv_Write); [exact HI |]. intros w1 HI1 H1.
  apply run_bind, (run_Issue Inv E Inv_Write); [exact HI1 |]. intros w2 HI2 H2.
  apply run_bind, (run_Issue Inv E Inv_Write); [exact HI2 |]. intros w3 HI3 H3.
  apply run_bind, (run_Issue Inv E Inv_Write); [exact HI3 |]. intros w4 HI4 H4.
  apply run_bind, (run_Issue Inv E Inv_Write); [exact HI4 |]. intros w5 HI5 H5.
  apply run_bind, (run_Issue Inv E Inv_Write); [exact HI5 |]. intros w6 HI6 H6.
  apply run_bind, (run_Issue Inv E Inv_Write); [exact HI6 |]. intros w7 HI7 H7.
  apply run_bind. eapply run_conseq.
  - apply (run_discovery_events Inv E Inv_Write Inv_Read 65 session0 w7 HI7
             session0_window); [reflexivity | |];
      cbn [session0 short_add]; lia.
  - cbn beta.
    intros w8 r HI8 (s' & body & -> & H8 & Hs' & Hprog & Hheard & Hsilent).
    cbn [session0 short_add low_longadd] in Hs', Hprog, Hheard, Hsilent.
    apply run_bind, (run_Issue Inv E Inv_Write); [exact HI8 |].
    intros w9 HI9 H9.
    apply run_bind, (run_Issue Inv E Inv_Write); [exact HI9 |].
    intros w10 HI10 H10.
    apply run_ret; [exact HI10 |]. exists body. cbn [fst snd].
    split.
    { rewrite H10, H9, H8, H7, H6, H5, H4, H3, H2, H1, <- !app_assoc.
      reflexivity. }
    split; [reflexivity |]. split; [lia |]. split; [exact Hprog |].
    split; [exact Hheard |]. intros Hall. apply Hsilent; [exact Hall | lia].
Qed.

Lemma Initialize_dali_session_returned (w w' : world (P := P))
  (r : option error * session) :
  Initialize_dali_session 65 24 w = Returned w' r ->
  exists body,
    history w' = history w ++ preamble ++ body ++ epilogue /\
    fst r = None /\
    0 <= short_add (snd r) <= 65 /\
    programmed body = tokens 0 (short_add (snd r)) /\
    (forallb deviates (buffers_read body) = true ->
     short_add (snd r) = 0 /\ (count_reads body <= 24)%nat) /\
    (forallb (fun rsp => negb (deviates rsp)) (buffers_read body) = true ->
     short_add (snd r) = 65).
Proof.
  intros Hrun.
  pose proof (run_Initialize_dali_events _ _ any_Write any_Read w I) as Hspec.
  apply run_any in Hspec as (_ & _ & Hpost). exact (Hpost w' r Hrun).
Qed.

(** X9. Whenever a commissioning run returns, its requests are: the seven
    opening broadcasts (reset twice, off, initialize twice, randomize
    twice), the discovery traffic, then terminate and broadcast on. The
    short addresses programmed by the discovery traffic (command 0xB7) are
    the tokens 1, 3, 5, ... in this order, one for each of the [short_add]
    assignments counted at the end, at most 65; the error returned is
    nil. *)
Theorem Initialize_dali_programs_tokens_in_order (w w' : world (P := P))
  (err : option error) (s : session)
  (Hrun : Initialize_dali_session 65 24 w = Returned w' (err, s)) :
  exists body,
    history w' = history w ++ preamble ++ body ++ epilogue /\
    programmed body = tokens 0 (short_add s) /\
    0 <= short_add s <= 65 /\
    err = None.
Proof.
  destruct (Initialize_dali_session_returned w w' _ Hrun)
    as (body & Hh & Herr & Hsa & Hprog & _).
  exists body. cbn [fst snd] in *. auto.
Qed.


(** X11. A commissioning run in which no buffer read shows a response
    programs 65 short addresses, the tokens 1, 3, ..., 129, whatever the
    port. *)
Theorem Initialize_dali_all_silent_assigns_65 (w w' : world (P := P))
  (err : option error) (s : session)
  (Hrun : Initialize_dali_session 65 24 w = Returned w' (err, s))
  (Hsilent : forallb (fun rsp => negb (deviates rsp))
               (buffers_read (skipn (length (history w)) (history w')))
             = true) :
  short_add s = 65 /\
  programmed (skipn (length (history w)) (history w')) = tokens 0 65.
Proof.
  destruct (Initialize_dali_session_returned w w' _ Hrun)
    as (body & Hh & _ & _ & Hprog & _ & Hall).
  cbn [fst snd] in *.
  rewrite (events_since _ _ _ Hh) in *.
  rewrite !buffers_read_app in Hsilent.
  change (buffers_read preamble) with (@nil (list Z)) in Hsilent.
  change (buffers_read epilogue) with (@nil (list Z)) in Hsilent.
  rewrite app_nil_r in Hsilent. cbn [app] in Hsilent.
  pose proof (Hall Hsilent) as Hfull.
  rewrite !programmed_app, Hprog, Hfull.
  split; [reflexivity |].
  change (programmed preamble) with (@nil Z).
  change (programmed epilogue) with (@nil Z).
  rewrite app_nil_r. reflexivity.
Qed.

End CommissionerRun.

(** * The inner search on the bus of the protocol *)

(** On a bus whose device at [T] answers a compare when its long address
    is at most the candidate: once the candidate is at or above [T] every
    compare is answered, and once it is below [T] none is. *)
Lemma upto_rule_all_heard (T : Z) (rsps : list (list Z)) :
  forall (s : session) (reg : Z * Z * Z),
  0 <= low_longadd s -> low_longadd s <= high_longadd s ->
  high_longadd s <= 0xFFFFFF ->
  longadd s = (low_longadd s + high_longadd s) / 2 ->
  T <= longadd s ->
  answered_by (fun candidate => T <=? candidate) reg (search_events s rsps)
    = true ->
  forallb deviates rsps = true.
Proof.
  induction rsps as [| rsp rsps IH]; intros s reg Hl Hlh Hh Hmid HT Hans;
    [reflexivity |].
  cbn [search_events forallb] in *.
  rewrite answered_by_probe in Hans.
  apply andb_true_iff in Hans as [Hrsp Hrest].
  apply eqb_prop in Hrsp.
  rewrite split_address_value in Hrsp
    by (rewrite Hmid; Z.to_euclidean_division_equations; lia).
  assert (Hheard : deviates rsp = true)
    by (rewrite Hrsp; apply Z.leb_le; exact HT).
  rewrite Hheard in *. cbn [andb].
  apply (IH _ _) in Hrest; [exact Hrest | | | | |];
    unfold narrow; cbn [low_longadd high_longadd longadd];
    try (rewrite midpoint_small by (rewrite ?Hmid;
           Z.to_euclidean_division_equations; lia));
    rewrite ?Hmid in *; try (Z.to_euclidean_division_equations; lia).
Qed.

Lemma upto_rule_all_silent (T : Z) (rsps : list (list Z)) :
  forall (s : session) (reg : Z * Z * Z),
  0 <= low_longadd s -> low_longadd s <= high_longadd s ->
  high_longadd s <= 0xFFFFFF ->
  longadd s = (low_longadd s + high_longadd s) / 2 ->
  longadd s < T ->
  answered_by (fun candidate => T <=? candidate) reg (search_events s rsps)
    = true ->
  forallb (fun rsp => negb (deviates rsp)) rsps = true.
Proof.
  induction rsps as [| rsp rsps IH]; intros s reg Hl Hlh Hh Hmid HT Hans;
    [reflexivity |].
  cbn [search_events forallb] in *.
  rewrite answered_by_probe in Hans.
  apply andb_true_iff in Hans as [Hrsp Hrest].
  apply eqb_prop in Hrsp.
  rewrite split_address_value in Hrsp
    by (rewrite Hmid; Z.to_euclidean_division_equations; lia).
  assert (Hsilent : deviates rsp = false)
    by (rewrite Hrsp; apply Z.leb_gt; exact HT).
  rewrite Hsilent in *. cbn [andb negb].
  apply (IH _ _) in Hrest; [exact Hrest | | | | |];
    unfold narrow; cbn [low_longadd high_longadd longadd];
    try (rewrite midpoint_small by (rewrite ?Hmid;
           Z.to_euclidean_division_equations; lia));
    rewrite ?Hmid in *; try (Z.to_euclidean_division_equations; lia).
Qed.

Section SearchOnProtocolBus.

Context {P : Type} `{Port P}.

(** X13. On a bus with a single device at long address T (0..0xFFFFFF)
    that answers a compare when its address is at most the candidate, the
    inner search from the window [0, 0xFFFFFF] never ends with
    low + 1 = T: for T <= 0x7FFFFF every compare is answered and it ends
    at low = 0xFFFFFE, high = 0xFFFFFF; for larger T no compare is
    answered and it ends at low = 0, high = 1. *)
Theorem inner_search_misses_every_target (T : Z) (w w' : world (P := P))
  (r : error + session)
  (HT : 0 <= T <= 0xFFFFFF)
  (Hrun : inner_search 24 session0 w = Returned w' r)
  (Hans : answered_by (fun candidate => T <=? candidate) (0, 0, 0)
            (skipn (length (history w)) (history w')) = true) :
  exists s',
    r = inr s' /\
    (if T <=? 0x7FFFFF
     then low_longadd s' = 0xFFFFFE /\ high_longadd s' = 0xFFFFFF
     else low_longadd s' = 0 /\ high_longadd s' = 1) /\
    low_longadd s' + 1 <> T.
Proof.
  pose proof (run_inner_search _ _ any_Write any_Read 24 session0 w I
                session0_window (window_width _ session0_window)) as Hspec.
  apply run_any in Hspec as (_ & _ & Hpost).
  destruct (Hpost w' r Hrun) as (rsps & -> & Hh & _ & Hok & Hone).
  rewrite (events_since _ _ _ Hh) in Hans.
  exists (replay session0 rsps). split; [reflexivity |].
  destruct Hok as (Hl & Hlh & Hhi & _).
  assert (Hmid0 : longadd session0
                  = (low_longadd session0 + high_longadd session0) / 2)
    by reflexivity.
  destruct (replay_bounds rsps session0 ltac:(cbn; lia) ltac:(cbn; lia)
              ltac:(cbn; lia) Hmid0 Hlh)
    as (_ & _ & Hceil & Hfloor).
  change (high_longadd session0) with 0xFFFFFF in Hceil.
  change (low_longadd session0) with 0 in Hfloor.
  destruct (Z.leb_spec T 0x7FFFFF) as [Hlow | Hhigh].
  - assert (Hall : forallb deviates rsps = true).
    { apply (upto_rule_all_heard T rsps session0 (0, 0, 0));
        try exact Hans; try exact Hmid0; cbn; lia. }
    apply Hceil in Hall. split; [split; lia | lia].
  - assert (Hall : forallb (fun rsp => negb (deviates rsp)) rsps = true).
    { apply (upto_rule_all_silent T rsps session0 (0, 0, 0));
        try exact Hans; try exact Hmid0; cbn; lia. }
    apply Hfloor in Hall. split; [split; lia | lia].
Qed.

End SearchOnProtocolBus.

Lemma inner_search_misses_every_target_witness :
  0 <= 5 <= 0xFFFFFF /\
  exists w' s',
    inner_search 24 session0 bus_device_upto_5 = Returned w' (inr s') /\
    answered_by (fun candidate => 5 <=? candidate) (0, 0, 0)
      (skipn (length (history bus_device_upto_5)) (history w')) = true /\
    low_longadd s' = 0xFFFFFE /\ high_longadd s' = 0xFFFFFF.
Proof.
  split; [lia |].
  assert (Hval : returned_value (inner_search 24 session0 bus_device_upto_5)
                 = Some (inr (mkSession 0xFFFFFE 0xFFFFFF 0xFFFFFE 0)))
    by (vm_compute; reflexivity).
  assert (Hans : answered_by (fun candidate => 5 <=? candidate) (0, 0, 0)
                   (final_history
                      (inner_search 24 session0 bus_device_upto_5)) = true)
    by (vm_compute; reflexivity).
  apply returned_value_Some in Hval as (w' & Hrun).
  rewrite Hrun in Hans. cbn [final_history] in Hans.
  exists w', (mkSession 0xFFFFFE 0xFFFFFF 0xFFFFFE 0).
  split; [exact Hrun |].
  change (history bus_device_upto_5) with (@nil event). cbn [length skipn].
  split; [exact Hans |].
  destruct (inner_search_misses_every_target 5 bus_device_upto_5 w' _
              ltac:(lia) Hrun Hans) as (s' & Hs' & Hends & _).
  injection Hs' as <-. exact Hends.
Defined.

(** * Failing reads *)

Section FailingReads.

Context {P : Type} `{Port P}.
Variable good : P -> Prop.
Variable e : error.

Hypothesis good_Write : forall p message,
  good p ->
  good (fst (port_Write p message)) /\
  snd (snd (port_Write p message)) = None.

Hypothesis good_Read : forall p,
  good p -> snd (snd (port_Read p 3)) = Some e.





End FailingReads.


(** * Further runs on concrete buses *)

Lemma Wait_dali_response_short_read_witness :
  port_Read (port short_read_bus) 3
    = (mkScript [] idle None [], ([0xff], None)) /\
  (length [0xff] < 3)%nat /\
  Wait_dali_response short_read_bus
    = Returned (mkWorld (mkScript [] idle None []) [Received [0xff; 0; 0]])
               ([0xff; 0; 0], None) /\
  compare_heard [0xff; 0; 0] = Some true.
Proof.
  assert (Hread : port_Read (port short_read_bus) 3
                  = (mkScript [] idle None [], ([0xff], None)))
    by reflexivity.
  assert (Hshort : (length [0xff] < 3)%nat) by (cbn; lia).
  split; [exact Hread |]. split; [exact Hshort |].
  destruct (Wait_dali_response_short_read short_read_bus _ _ Hread Hshort)
    as (Hrun & _ & _ & Hcmp).
  split; [exact Hrun | exact Hcmp].
Defined.

Lemma Scan_addresses_result_shape_witness :
  exists w' xs,
    Scan_addresses bus_3_7 = Returned w' ([7; 15; 0], None) /\
    [7; 15; 0] = map (fun a => 2 * a + 1) xs ++ [0] /\
    Sorted Z.lt xs /\ Forall (fun a => 0 <= a <= 63) xs.
Proof.
  assert (Hval : returned_value (Scan_addresses bus_3_7)
                 = Some ([7; 15; 0], None))
    by (vm_compute; reflexivity).
  apply returned_value_Some in Hval as (w' & Hrun).
  destruct (Scan_addresses_result_shape bus_3_7 w' _ _ Hrun)
    as (xs & Hresp & Hsorted & Hrange & _).
  exists w', xs. repeat split; assumption.
Defined.

Lemma Scan_addresses_traffic_witness :
  exists w',
    Scan_addresses bus_3_7 = Returned w' ([7; 15; 0], None) /\
    count_reads (skipn (length (history bus_3_7)) (history w')) = 64%nat /\
    count_sent (skipn (length (history bus_3_7)) (history w')) = 70%nat.
Proof.
  assert (Hval : returned_value (Scan_addresses bus_3_7)
                 = Some ([7; 15; 0], None))
    by (vm_compute; reflexivity).
  apply returned_value_Some in Hval as (w' & Hrun).
  destruct (Scan_addresses_traffic bus_3_7 w' _ _ Hrun)
    as (Hreads & Hsent & _).
  exists w'. split; [exact Hrun |]. split; [exact Hreads | exact Hsent].
Defined.


(** The commissioning run on the idle bus: what it returns, and that
    every buffer it read was idle. *)
Lemma idle_session_summary :
  (fun o => (returned_value o,
             forallb (fun rsp => negb (deviates rsp))
                     (buffers_read (final_history o))))
    (Initialize_dali_session 65 24 idle_bus)
  = (Some (None, mkSession 0 0xFFFFFF 0x7FFFFF 65), true).
Proof. vm_compute. reflexivity. Qed.

Lemma idle_session_returned :
  exists w',
    Initialize_dali_session 65 24 idle_bus
      = Returned w' (None, mkSession 0 0xFFFFFF 0x7FFFFF 65) /\
    forallb (fun rsp => negb (deviates rsp))
      (buffers_read (skipn (length (history idle_bus)) (history w')))
      = true.
Proof.
  destruct (pair_eq _ _ _ _ idle_session_summary) as [Hret Hidle].
  apply returned_value_Some in Hret as (w' & Hrun).
  rewrite Hrun in Hidle. cbn [final_history] in Hidle.
  exists w'. split; [exact Hrun |].
  change (history idle_bus) with (@nil event). cbn [length skipn].
  exact Hidle.
Qed.

Lemma Initialize_dali_all_silent_assigns_65_witness :
  exists w',
    Initialize_dali_session 65 24 idle_bus
      = Returned w' (None, mkSession 0 0xFFFFFF 0x7FFFFF 65) /\
    forallb (fun rsp => negb (deviates rsp))
      (buffers_read (skipn (length (history idle_bus)) (history w')))
      = true /\
    programmed (skipn (length (history idle_bus)) (history w'))
      = tokens 0 65.
Proof.
  destruct idle_session_returned as (w' & Hrun & Hsilent).
  exists w'. split; [exact Hrun |]. split; [exact Hsilent |].
  destruct (Initialize_dali_all_silent_assigns_65 idle_bus w' None _
              Hrun Hsilent) as (_ & Hprog).
  exact Hprog.
Defined.

Lemma Initialize_dali_programs_tokens_in_order_witness :
  exists w' body,
    Initialize_dali_session 65 24 idle_bus
      = Returned w' (None, mkSession 0 0xFFFFFF 0x7FFFFF 65) /\
    history w' = history idle_bus ++ preamble ++ body ++ epilogue /\
    programmed body = tokens 0 65.
Proof.
  destruct idle_session_returned as (w' & Hrun & _).
  destruct (Initialize_dali_programs_tokens_in_order idle_bus w' None _ Hrun)
    as (body & Hh & Hprog & _).
  exists w', body. split; [exact Hrun |]. split; [exact Hh | exact Hprog].
Defined.
